(** * libkeyfinder C wrapper: the progressive analysis session

    A shallow embedding of [Frameworks/libkeyfinder/keyfinder_c.cpp] and
    [keyfinder_c.h].  The wrapper keeps a growable sample buffer in front of
    the libkeyfinder engine, hands it over in blocks of [CHUNK_FRAMES]
    frames and asks the engine for a key.

    Conventions of the embedding:
    - [unsigned int] values are [Z] with the wrap-around modulo [2^32]
      written out ([uint]);
    - a pointer that may be null is an [option];
    - [std::vector<double>] is a [list]; reading or erasing past its end is
      undefined behaviour in C++ and is the outcome [Undefined] here;
    - the [while] loop runs on fuel; [kf_session_feed] supplies the value of
      the loop counter as fuel, and running out of it is the separate
      outcome [OutOfFuel] (shown never to happen);
    - libkeyfinder itself is not part of the sources: the engine is a type
      class whose operations may return or throw, and every call made to it
      is recorded in a trace of [event]s. *)

From Stdlib Require Import ZArith Lia.
From stdpp Require Import base list.

Local Open Scope Z_scope.

(** ** Outcomes of the embedded code *)

Inductive exec (A : Type) : Type :=
| Normal (a : A)
| Undefined
| OutOfFuel.
Arguments Normal {A} a.
Arguments Undefined {A}.
Arguments OutOfFuel {A}.

#[global] Instance exec_ret : MRet exec := fun A a => Normal a.
#[global] Instance exec_bind : MBind exec := fun A B k m =>
  match m with
  | Normal a => k a
  | Undefined => Undefined
  | OutOfFuel => OutOfFuel
  end.

(** A call into C++ code that may throw. *)
Inductive completion (A : Type) : Type :=
| Returns (a : A)
| Throws.
Arguments Returns {A} a.
Arguments Throws {A}.

(** ** Machine integers *)

Definition UINT_RANGE : Z := 2 ^ 32.

(** The value an [unsigned int] expression takes. *)
Definition uint (z : Z) : Z := z mod UINT_RANGE.

Definition is_uint (z : Z) : Prop := 0 <= z < UINT_RANGE.

(** ** keyfinder_c.h: the key enumeration *)

Inductive kf_key_t : Set :=
| KF_A_MAJOR | KF_A_MINOR
| KF_B_FLAT_MAJOR | KF_B_FLAT_MINOR
| KF_B_MAJOR | KF_B_MINOR
| KF_C_MAJOR | KF_C_MINOR
| KF_D_FLAT_MAJOR | KF_D_FLAT_MINOR
| KF_D_MAJOR | KF_D_MINOR
| KF_E_FLAT_MAJOR | KF_E_FLAT_MINOR
| KF_E_MAJOR | KF_E_MINOR
| KF_F_MAJOR | KF_F_MINOR
| KF_G_FLAT_MAJOR | KF_G_FLAT_MINOR
| KF_G_MAJOR | KF_G_MINOR
| KF_A_FLAT_MAJOR | KF_A_FLAT_MINOR
| KF_SILENCE.

#[global] Instance kf_key_t_eq_dec : EqDecision kf_key_t.
Proof. solve_decision. Defined.

(** The enumerator list as the header writes it: an enumerator either has
    an initialiser ([Some v]) or none. *)
Definition kf_key_t_enumerators : list (kf_key_t * option Z) :=
  [ (KF_A_MAJOR, Some 0); (KF_A_MINOR, None);
    (KF_B_FLAT_MAJOR, None); (KF_B_FLAT_MINOR, None);
    (KF_B_MAJOR, None); (KF_B_MINOR, Some 5);
    (KF_C_MAJOR, None); (KF_C_MINOR, None);
    (KF_D_FLAT_MAJOR, None); (KF_D_FLAT_MINOR, None);
    (KF_D_MAJOR, Some 10); (KF_D_MINOR, None);
    (KF_E_FLAT_MAJOR, None); (KF_E_FLAT_MINOR, None);
    (KF_E_MAJOR, None); (KF_E_MINOR, Some 15);
    (KF_F_MAJOR, None); (KF_F_MINOR, None);
    (KF_G_FLAT_MAJOR, None); (KF_G_FLAT_MINOR, None);
    (KF_G_MAJOR, Some 20); (KF_G_MINOR, None);
    (KF_A_FLAT_MAJOR, None); (KF_A_FLAT_MINOR, None);
    (KF_SILENCE, Some 24) ].

(** The rule of C for enumerator values: the initialiser when there is one,
    otherwise one more than the previous enumerator (zero for the first). *)
Fixpoint enumerator_values {E : Type} (next : Z) (decl : list (E * option Z))
  : list (E * Z) :=
  match decl with
  | [] => []
  | (e, init) :: rest =>
      let v := default next init in
      (e, v) :: enumerator_values (v + 1) rest
  end.

Fixpoint assoc_value {E : Type} `{EqDecision E} (e : E) (tbl : list (E * Z))
  : option Z :=
  match tbl with
  | [] => None
  | (e', v) :: rest => if decide (e = e') then Some v else assoc_value e rest
  end.

Definition kf_key_value (k : kf_key_t) : Z :=
  default 0 (assoc_value k (enumerator_values 0 kf_key_t_enumerators)).

(** The enumerator whose value is [v], if any. *)
Definition kf_key_of_value (v : Z) : option kf_key_t :=
  fst <$> List.find (fun p => Z.eqb (snd p) v)
                    (enumerator_values 0 kf_key_t_enumerators).

(** [static_cast<kf_key_t>(key)]: a cast between enumerations keeps the
    integer value.  Keys cross the C boundary as these integers. *)
Definition static_cast_kf_key_t (key : Z) : Z := key.

(** ** The arithmetic types of samples *)

(** [float] is the type of the samples the caller passes, [double] the type
    the buffer and the engine work with.  Nothing in the wrapper inspects a
    sample, so the two types and the conversion stay abstract. *)
Class Numerics : Type := {
  float : Type;
  double : Type;
  static_cast_double : float → double;
  double_zero : double
}.

(** ** The engine *)

Section AudioData.
Context `{Numerics}.

(** Modelled from the spec: [KeyFinder::AudioData] is declared in
    keyfinder/audiodata.h, which is not among the sources.  The spec calls
    it an audio block described by frame rate, channel count and total
    sample count, with samples addressable by flat index; the setters the
    wrapper calls fill in exactly these parts.  [addToSampleCount] adds
    zero samples at the end, [setSample] overwrites one of them (the
    wrapper only passes indices below the count it has just added; an index
    past the end changes nothing here). *)
Record AudioData : Type := {
  ad_frameRate : Z;
  ad_channels : Z;
  ad_samples : list double
}.

Definition AudioData_new : AudioData :=
  {| ad_frameRate := 0; ad_channels := 0; ad_samples := [] |}.

Definition setFrameRate (r : Z) (a : AudioData) : AudioData :=
  {| ad_frameRate := r; ad_channels := ad_channels a;
     ad_samples := ad_samples a |}.

Definition setChannels (c : Z) (a : AudioData) : AudioData :=
  {| ad_frameRate := ad_frameRate a; ad_channels := c;
     ad_samples := ad_samples a |}.

Definition addToSampleCount (n : Z) (a : AudioData) : AudioData :=
  {| ad_frameRate := ad_frameRate a; ad_channels := ad_channels a;
     ad_samples := ad_samples a ++ replicate (Z.to_nat n) double_zero |}.

Definition setSample (i : nat) (v : double) (a : AudioData) : AudioData :=
  {| ad_frameRate := ad_frameRate a; ad_channels := ad_channels a;
     ad_samples := <[i := v]> (ad_samples a) |}.

(** What the wrapper asks of the engine, in call order. [returned] is
    [false] when the call threw. *)
Inductive event : Type :=
| ProgressiveChromagram (audio : AudioData) (returned : bool)
| FinalChromagram (returned : bool)
| KeyOfChromagram (result : option Z).

(** [KeyFinder::KeyFinder] and [KeyFinder::Workspace] with the three
    member functions the wrapper uses.  keyfinder/keyfinder.h and
    keyfinder/workspace.h are not among the sources, so nothing is assumed
    about them: each call may change both objects and may throw.
    [KeyFinder::key_t] is represented by its integer value. *)
Class Engine (KeyFinder Workspace : Type) : Type := {
  KeyFinder_new : KeyFinder;
  Workspace_new : Workspace;
  progressiveChromagram :
    KeyFinder → AudioData → Workspace → completion unit * KeyFinder * Workspace;
  finalChromagram :
    KeyFinder → Workspace → completion unit * KeyFinder * Workspace;
  keyOfChromagram :
    KeyFinder → Workspace → completion Z * KeyFinder * Workspace
}.
End AudioData.

(** ** keyfinder_c.cpp *)

Definition CHUNK_FRAMES : Z := 16384.

Section Session.
Context `{Numerics} {KeyFinder Workspace : Type} `{!Engine KeyFinder Workspace}.

Record kf_session : Type := {
  finder : KeyFinder;
  workspace : Workspace;
  frameRate : Z;
  channels : Z;
  sampleBuffer : list double;
  bufferedFrames : Z;
  hasData : bool
}.

(** Field updates. *)
Definition set_engine (f : KeyFinder) (w : Workspace) (s : kf_session) : kf_session :=
  {| finder := f; workspace := w; frameRate := frameRate s;
     channels := channels s; sampleBuffer := sampleBuffer s;
     bufferedFrames := bufferedFrames s; hasData := hasData s |}.

Definition set_hasData (b : bool) (s : kf_session) : kf_session :=
  {| finder := finder s; workspace := workspace s; frameRate := frameRate s;
     channels := channels s; sampleBuffer := sampleBuffer s;
     bufferedFrames := bufferedFrames s; hasData := b |}.

Definition set_sampleBuffer (buf : list double) (s : kf_session) : kf_session :=
  {| finder := finder s; workspace := workspace s; frameRate := frameRate s;
     channels := channels s; sampleBuffer := buf;
     bufferedFrames := bufferedFrames s; hasData := hasData s |}.

Definition set_bufferedFrames (n : Z) (s : kf_session) : kf_session :=
  {| finder := finder s; workspace := workspace s; frameRate := frameRate s;
     channels := channels s; sampleBuffer := sampleBuffer s;
     bufferedFrames := n; hasData := hasData s |}.

(** [kf_session_create]: [reserve] changes the capacity of the vector
    only, not its contents. *)
Definition kf_session_create (frame_rate channels : Z) : kf_session :=
  {| finder := KeyFinder_new; workspace := Workspace_new;
     frameRate := frame_rate; channels := channels;
     sampleBuffer := []; bufferedFrames := 0; hasData := false |}.

(** [for (i = 0; i < frames; i++) sampleBuffer.push_back(static_cast<double>(samples[i]))],
    entered at index [i] with [todo] iterations left.  [samples] is the
    array the caller's pointer refers to; reading past its end is
    undefined. *)
Fixpoint push_samples (samples : list float) (buf : list double)
    (i todo : nat) : exec (list double) :=
  match todo with
  | O => mret buf
  | S todo' =>
      match samples !! i with
      | Some x => push_samples samples (buf ++ [static_cast_double x]) (S i) todo'
      | None => Undefined
      end
  end.

(** [for (i = 0; i < chunkSamples; i++) audio.setSample(i, sampleBuffer[i])]. *)
Fixpoint copy_samples (buf : list double) (audio : AudioData)
    (i todo : nat) : exec AudioData :=
  match todo with
  | O => mret audio
  | S todo' =>
      match buf !! i with
      | Some x => copy_samples buf (setSample i x audio) (S i) todo'
      | None => Undefined
      end
  end.

(** The block both [kf_session_feed] and [kf_session_finalize] build from
    the first [chunkSamples] buffer entries. *)
Definition make_audio (s : kf_session) (channels chunkSamples : Z) : exec AudioData :=
  let audio := AudioData_new in
  let audio := setFrameRate (frameRate s) audio in
  let audio := setChannels channels audio in
  let audio := addToSampleCount chunkSamples audio in
  copy_samples (sampleBuffer s) audio 0 (Z.to_nat chunkSamples).

(** [try { finder.progressiveChromagram(audio, workspace); hasData = true; } catch (...) {}] *)
Definition try_progressiveChromagram (audio : AudioData) (s : kf_session)
  : kf_session * event :=
  match progressiveChromagram (finder s) audio (workspace s) with
  | (Returns _, f, w) =>
      (set_hasData true (set_engine f w s), ProgressiveChromagram audio true)
  | (Throws, f, w) =>
      (set_engine f w s, ProgressiveChromagram audio false)
  end.

(** [sampleBuffer.erase(begin(), begin() + n)] *)
Definition erase_front (buf : list double) (n : nat) : exec (list double) :=
  if decide (n ≤ length buf)%nat then mret (drop n buf) else Undefined.

(** One turn of the [while] loop of [kf_session_feed]. *)
Definition drain_chunk (channels : Z) (s : kf_session) : exec (kf_session * event) :=
  let chunkSamples := uint (CHUNK_FRAMES * channels) in
  audio ← make_audio s channels chunkSamples;
  let '(s1, ev) := try_progressiveChromagram audio s in
  buf ← erase_front (sampleBuffer s1) (Z.to_nat chunkSamples);
  let s2 := set_sampleBuffer buf s1 in
  mret (set_bufferedFrames (uint (bufferedFrames s2 - CHUNK_FRAMES)) s2, ev).

(** [while (session->bufferedFrames >= CHUNK_FRAMES) { ... }] *)
Fixpoint drain_loop (fuel : nat) (channels : Z) (s : kf_session)
  : exec (kf_session * list event) :=
  if decide (CHUNK_FRAMES <= bufferedFrames s) then
    match fuel with
    | O => OutOfFuel
    | S fuel' =>
        '(s1, ev) ← drain_chunk channels s;
        '(s2, evs) ← drain_loop fuel' channels s1;
        mret (s2, ev :: evs)
    end
  else mret (s, []).

Definition kf_session_feed (session : option kf_session)
    (samples : option (list float)) (sample_count : Z)
  : exec (option kf_session * list event) :=
  match session, samples with
  | Some s, Some smp =>
      if decide (sample_count = 0) then mret (session, [])
      else
        let channels := channels s in
        let frames := sample_count in
        buf ← push_samples smp (sampleBuffer s) 0 (Z.to_nat frames);
        let s := set_sampleBuffer buf s in
        let s := set_bufferedFrames (uint (bufferedFrames s + frames)) s in
        '(s, evs) ← drain_loop (Z.to_nat (bufferedFrames s)) channels s;
        mret (Some s, evs)
  | _, _ => mret (session, [])
  end.

Definition kf_session_get_key (session : option kf_session)
  : Z * option kf_session * list event :=
  match session with
  | None => (kf_key_value KF_SILENCE, session, [])
  | Some s =>
      if negb (hasData s) then (kf_key_value KF_SILENCE, session, [])
      else
        match keyOfChromagram (finder s) (workspace s) with
        | (Returns key, f, w) =>
            (static_cast_kf_key_t key, Some (set_engine f w s),
             [KeyOfChromagram (Some key)])
        | (Throws, f, w) =>
            (kf_key_value KF_SILENCE, Some (set_engine f w s),
             [KeyOfChromagram None])
        end
  end.

(** The [if (session->bufferedFrames > 0) { ... }] block of
    [kf_session_finalize]. *)
Definition flush_remaining (s : kf_session) : exec (kf_session * list event) :=
  if decide (0 < bufferedFrames s) then
    let channels := channels s in
    let chunkSamples := uint (bufferedFrames s * channels) in
    audio ← make_audio s channels chunkSamples;
    let '(s1, ev) := try_progressiveChromagram audio s in
    let s2 := set_sampleBuffer [] s1 in
    mret (set_bufferedFrames 0 s2, [ev])
  else mret (s, []).

Definition kf_session_finalize (session : option kf_session)
  : exec (Z * option kf_session * list event) :=
  match session with
  | None => mret (kf_key_value KF_SILENCE, session, [])
  | Some s =>
      '(s, evs) ← flush_remaining s;
      match finalChromagram (finder s) (workspace s) with
      | (Returns _, f, w) =>
          let s := set_engine f w s in
          match keyOfChromagram (finder s) (workspace s) with
          | (Returns key, f, w) =>
              mret (static_cast_kf_key_t key, Some (set_engine f w s),
                    evs ++ [FinalChromagram true; KeyOfChromagram (Some key)])
          | (Throws, f, w) =>
              mret (kf_key_value KF_SILENCE, Some (set_engine f w s),
                    evs ++ [FinalChromagram true; KeyOfChromagram None])
          end
      | (Throws, f, w) =>
          mret (kf_key_value KF_SILENCE, Some (set_engine f w s),
                evs ++ [FinalChromagram false])
      end
  end.

(** *** Vocabulary of the statements *)

(** The invariant of the data model relating counter and buffer. *)
Definition buffer_invariant (s : kf_session) : Prop :=
  bufferedFrames s * channels s = Z.of_nat (length (sampleBuffer s)).

(** A one-channel session in a state the operations leave behind. *)
Definition mono_session (s : kf_session) : Prop :=
  channels s = 1 ∧ is_uint (bufferedFrames s) ∧ buffer_invariant s.

(** The state [kf_session_feed] enters its [while] loop with, when the
    [frames] samples [xs] were read from the caller's array. *)
Definition appended (s : kf_session) (xs : list float) (frames : Z) : kf_session :=
  set_bufferedFrames (uint (bufferedFrames s + frames))
    (set_sampleBuffer (sampleBuffer s ++ (static_cast_double <$> xs)) s).

(** Turns of the [while] loop a state asks for. *)
Definition turns (s : kf_session) : nat :=
  Z.to_nat (bufferedFrames s / CHUNK_FRAMES).

(** Blocks handed to [progressiveChromagram], in order. *)
Fixpoint submissions (evs : list event) : list AudioData :=
  match evs with
  | [] => []
  | ProgressiveChromagram audio _ :: rest => audio :: submissions rest
  | _ :: rest => submissions rest
  end.

(** The submissions that returned. *)
Fixpoint accepted (evs : list event) : list AudioData :=
  match evs with
  | [] => []
  | ProgressiveChromagram audio true :: rest => audio :: accepted rest
  | _ :: rest => accepted rest
  end.

(** A sequence of [kf_session_feed] calls on one handle; each call passes
    an array and a count. *)
Fixpoint feed_all (session : option kf_session) (calls : list (list float * Z))
  : exec (option kf_session * list event) :=
  match calls with
  | [] => mret (session, [])
  | (smp, n) :: rest =>
      '(session1, evs1) ← kf_session_feed session (Some smp) n;
      '(session2, evs2) ← feed_all session1 rest;
      mret (session2, evs1 ++ evs2)
  end.

(** The call that passes a whole one-channel array. *)
Definition mono_call (smp : list float) : list float * Z :=
  (smp, Z.of_nat (length smp)).

(** The block a turn of the loop submits. *)
Definition chunk_of (ch : Z) (s : kf_session) : AudioData :=
  {| ad_frameRate := frameRate s; ad_channels := ch;
     ad_samples := take (Z.to_nat (uint (CHUNK_FRAMES * ch))) (sampleBuffer s) |}.

(** The state a turn of the loop leaves, whatever the engine did. *)
Definition after_chunk (ch : Z) (s : kf_session) : kf_session :=
  set_bufferedFrames (uint (bufferedFrames s - CHUNK_FRAMES))
    (set_sampleBuffer (drop (Z.to_nat (uint (CHUNK_FRAMES * ch))) (sampleBuffer s))
       (try_progressiveChromagram (chunk_of ch s) s).1).

(** The first [k] consecutive blocks of [chunkSamples] samples of [l]. *)
Fixpoint blocks (frame_rate ch : Z) (k : nat) (l : list double) : list AudioData :=
  match k with
  | O => []
  | S k' =>
      {| ad_frameRate := frame_rate; ad_channels := ch;
         ad_samples := take (Z.to_nat (uint (CHUNK_FRAMES * ch))) l |}
      :: blocks frame_rate ch k' (drop (Z.to_nat (uint (CHUNK_FRAMES * ch))) l)
  end.

(** The [while] loop run with the fuel it asks for. *)
Definition drain (ch : Z) (s : kf_session) : exec (kf_session * list event) :=
  drain_loop (turns s) ch s.

(** The samples handed to [progressiveChromagram], block after block. *)
Definition block_samples (evs : list event) : list double :=
  concat (ad_samples <$> submissions evs).

(** An engine call that submits a block of [chunkSamples] samples tagged
    with the given rate and channel count. *)
Definition chunk_event (frame_rate ch : Z) (ev : event) : Prop :=
  match ev with
  | ProgressiveChromagram audio _ =>
      ad_frameRate audio = frame_rate
      ∧ ad_channels audio = ch
      ∧ length (ad_samples audio) = Z.to_nat (uint (CHUNK_FRAMES * ch))
  | _ => False
  end.

(** Calls of [finalChromagram] in a trace. *)
Fixpoint final_calls (evs : list event) : nat :=
  match evs with
  | [] => O
  | FinalChromagram _ :: rest => S (final_calls rest)
  | _ :: rest => final_calls rest
  end.

(** Frames a sequence of calls counts in total. *)
Definition total_frames (calls : list (list float * Z)) : Z :=
  foldr (λ call acc, call.2 + acc) 0 calls.

(** A call whose array holds the samples it counts. *)
Definition call_in_bounds (call : list float * Z) : Prop :=
  0 <= call.2 ∧ (Z.to_nat call.2 ≤ length call.1)%nat.

(** The parts of a session that do not belong to the engine. *)
Definition bookkeeping (s : kf_session) : Z * Z * list double * Z :=
  (frameRate s, channels s, sampleBuffer s, bufferedFrames s).
End Session.

Arguments kf_session {_} KeyFinder Workspace.

(** Two runs that are both undefined, or both return sessions with the same
    bookkeeping after the same submissions. *)
Definition same_run `{Numerics} {A B : Type}
    (books1 : A → Z * Z * list double * Z) (books2 : B → Z * Z * list double * Z)
    (r1 : exec (A * list event)) (r2 : exec (B * list event)) : Prop :=
  match r1, r2 with
  | Normal (t1, evs1), Normal (t2, evs2) =>
      books1 t1 = books2 t2 ∧ submissions evs1 = submissions evs2
  | Undefined, Undefined => True
  | OutOfFuel, OutOfFuel => True
  | _, _ => False
  end.

(** ** Two small engines to run the code on *)

(** Samples as integers; the conversion keeps the value. *)
Definition integer_samples : Numerics :=
  {| float := Z; double := Z; static_cast_double := fun x => x; double_zero := 0 |}.

(** An engine that counts the samples it was given and answers with the
    count modulo 24; none of its calls throws. *)
Definition counting_engine : @Engine integer_samples unit Z :=
  {| KeyFinder_new := tt; Workspace_new := 0;
     progressiveChromagram := fun f audio w =>
       (Returns tt, f, w + Z.of_nat (length (@ad_samples integer_samples audio)));
     finalChromagram := fun f w => (Returns tt, f, w);
     keyOfChromagram := fun f w => (Returns (w mod 24), f, w) |}.

(** An engine all of whose calls throw. *)
Definition throwing_engine : @Engine integer_samples unit unit :=
  {| KeyFinder_new := tt; Workspace_new := tt;
     progressiveChromagram := fun f _ w => (Throws, f, w);
     finalChromagram := fun f w => (Throws, f, w);
     keyOfChromagram := fun f w => (Throws, f, w) |}.

(** Sessions and arrays the code is run on below. *)

(** A session for interleaved two-channel audio, just created. *)
Definition stereo_session : @kf_session integer_samples unit Z :=
  @kf_session_create integer_samples unit Z counting_engine 44100 2.

(** A one-channel session, just created. *)
Definition mono_counting : @kf_session integer_samples unit Z :=
  @kf_session_create integer_samples unit Z counting_engine 44100 1.

(** A one-channel session holding three frames, nothing submitted yet. *)
Definition partial_session : @kf_session integer_samples unit Z :=
  @Build_kf_session integer_samples unit Z tt 0 44100 1 [3; 1; 4] 3 false.

(** A one-channel session whose engine has taken 30 samples. *)
Definition running_session : @kf_session integer_samples unit Z :=
  @Build_kf_session integer_samples unit Z tt 30 44100 1 [3; 1; 4] 3 true.

(** An array of [n] samples. *)
Definition constant_samples (n : Z) : list (@float integer_samples) :=
  replicate (Z.to_nat n) 7.

(** A one-channel session just created on the throwing engine. *)
Definition mono_throwing : @kf_session integer_samples unit unit :=
  @kf_session_create integer_samples unit unit throwing_engine 44100 1.

(** * Properties *)

(** ** Machine arithmetic *)

(** Linear arithmetic with the constants of the wrapper made explicit. *)
Ltac uint_lia :=
  unfold is_uint, CHUNK_FRAMES, UINT_RANGE in *;
  change (2 ^ 32) with 4294967296 in *;
  lia.

Lemma uint_small z : is_uint z → uint z = z.
Proof. unfold is_uint, uint. intros Hz. by apply Z.mod_small. Qed.

Lemma uint_is_uint z : is_uint (uint z).
Proof. unfold is_uint, uint, UINT_RANGE. apply Z.mod_pos_bound. lia. Qed.

Lemma uint_le z : 0 <= z → uint z <= z.
Proof. unfold uint, UINT_RANGE. intros Hz. apply Z.mod_le; lia. Qed.

Lemma uint_mod_chunk z : uint z mod CHUNK_FRAMES = z mod CHUNK_FRAMES.
Proof.
  unfold uint, UINT_RANGE, CHUNK_FRAMES.
  apply Z.mod_mod_divide. exists 262144. reflexivity.
Qed.

Lemma exec_bind_normal {A B : Type} (a : A) (k : A → exec B) :
  (Normal a ≫= k) = k a.
Proof. reflexivity. Qed.

Section Wrapper.
Context `{Numerics} {KeyFinder Workspace : Type} `{!Engine KeyFinder Workspace}.
Implicit Types s t : kf_session KeyFinder Workspace.
Implicit Types buf pre : list double.
Implicit Types samples xs : list float.

(** ** The two copying loops *)

Lemma push_samples_ok samples buf i todo :
  (i + todo ≤ length samples)%nat →
  push_samples samples buf i todo
  = Normal (buf ++ (static_cast_double <$> take todo (drop i samples))).
Proof.
  revert buf i. induction todo as [|todo IH]; intros buf i Hlen; simpl.
  - by rewrite app_nil_r.
  - destruct (samples !! i) as [x|] eqn:Hx.
    + rewrite IH by lia. rewrite (drop_S _ _ _ Hx). simpl.
      by rewrite <- app_assoc.
    + apply lookup_ge_None in Hx. lia.
Qed.

Lemma push_samples_short samples buf i todo :
  (length samples < i + todo)%nat → todo ≠ O →
  push_samples samples buf i todo = Undefined.
Proof.
  revert buf i. induction todo as [|todo IH]; intros buf i Hlen Hpos; [done|].
  simpl. destruct (samples !! i) as [x|] eqn:Hx; [|done].
  apply lookup_lt_Some in Hx. apply IH; lia.
Qed.

Lemma copy_samples_ok buf audio pre i todo :
  ad_samples audio = pre ++ replicate todo double_zero →
  length pre = i →
  (i + todo ≤ length buf)%nat →
  copy_samples buf audio i todo
  = Normal {| ad_frameRate := ad_frameRate audio;
              ad_channels := ad_channels audio;
              ad_samples := pre ++ take todo (drop i buf) |}.
Proof.
  revert audio pre i. induction todo as [|todo IH]; intros audio pre i Ha Hi Hlen; simpl.
  - simpl in Ha. rewrite app_nil_r in *. destruct audio; simpl in *. by subst.
  - destruct (buf !! i) as [x|] eqn:Hx.
    + rewrite (IH _ (pre ++ [x])); simpl.
      * rewrite (drop_S _ _ _ Hx). simpl. by rewrite <- app_assoc.
      * rewrite Ha, insert_app_r_alt by lia.
        replace (i - length pre)%nat with O by lia.
        simpl. by rewrite <- app_assoc.
      * rewrite length_app. simpl. lia.
      * lia.
    + apply lookup_ge_None in Hx. lia.
Qed.

Lemma copy_samples_short buf audio i todo :
  (length buf < i + todo)%nat → todo ≠ O →
  copy_samples buf audio i todo = Undefined.
Proof.
  revert audio i. induction todo as [|todo IH]; intros audio i Hlen Hpos; [done|].
  simpl. destruct (buf !! i) as [x|] eqn:Hx; [|done].
  apply lookup_lt_Some in Hx. apply IH; lia.
Qed.

(** The block built from a buffer that is long enough holds its first
    [chunkSamples] entries. *)
Lemma make_audio_ok s ch chunkSamples :
  (Z.to_nat chunkSamples ≤ length (sampleBuffer s))%nat →
  make_audio s ch chunkSamples
  = Normal {| ad_frameRate := frameRate s; ad_channels := ch;
              ad_samples := take (Z.to_nat chunkSamples) (sampleBuffer s) |}.
Proof.
  intros Hlen. unfold make_audio.
  by rewrite (copy_samples_ok _ _ []).
Qed.

Lemma make_audio_short s ch chunkSamples :
  (length (sampleBuffer s) < Z.to_nat chunkSamples)%nat →
  make_audio s ch chunkSamples = Undefined.
Proof.
  intros Hlen. unfold make_audio. apply copy_samples_short; lia.
Qed.

(** ** One turn of the loop *)

Lemma try_progressiveChromagram_bookkeeping audio s :
  bookkeeping (try_progressiveChromagram audio s).1 = bookkeeping s.
Proof.
  unfold try_progressiveChromagram.
  by destruct (progressiveChromagram _ _ _) as [[[[]|] f] w].
Qed.

Lemma try_progressiveChromagram_event audio s :
  ∃ ok, (try_progressiveChromagram audio s).2 = ProgressiveChromagram audio ok
        ∧ hasData (try_progressiveChromagram audio s).1 = (ok || hasData s).
Proof.
  unfold try_progressiveChromagram.
  destruct (progressiveChromagram _ _ _) as [[[[]|] f] w]; simpl.
  - by exists true.
  - by exists false.
Qed.

(** The flag recorded with a submission says whether the engine returned. *)
Lemma try_progressiveChromagram_returned audio s ok :
  (try_progressiveChromagram audio s).2 = ProgressiveChromagram audio ok →
  (progressiveChromagram (finder s) audio (workspace s)).1.1
  = if ok then Returns tt else Throws.
Proof.
  unfold try_progressiveChromagram.
  destruct (progressiveChromagram _ _ _) as [[[[]|] f] w]; simpl;
    by intros [= <-].
Qed.

Lemma drain_chunk_ok ch s :
  (Z.to_nat (uint (CHUNK_FRAMES * ch)) ≤ length (sampleBuffer s))%nat →
  drain_chunk ch s
  = Normal (after_chunk ch s, (try_progressiveChromagram (chunk_of ch s) s).2).
Proof.
  intros Hlen. unfold drain_chunk, after_chunk.
  rewrite make_audio_ok by done. simpl. fold (chunk_of ch s).
  pose proof (try_progressiveChromagram_bookkeeping (chunk_of ch s) s) as Hb.
  destruct (try_progressiveChromagram (chunk_of ch s) s) as [s1 ev]. simpl in *.
  unfold bookkeeping in Hb. injection Hb as Hfr Hch Hbuf Hbf.
  unfold erase_front. rewrite Hbuf.
  rewrite decide_True by done. simpl.
  unfold set_bufferedFrames, set_sampleBuffer. simpl. by rewrite Hbf.
Qed.

Lemma drain_chunk_short ch s :
  (length (sampleBuffer s) < Z.to_nat (uint (CHUNK_FRAMES * ch)))%nat →
  drain_chunk ch s = Undefined.
Proof.
  intros Hlen. unfold drain_chunk. by rewrite make_audio_short.
Qed.

Lemma drain_chunk_cases ch s :
  (Z.to_nat (uint (CHUNK_FRAMES * ch)) ≤ length (sampleBuffer s))%nat
  ∧ drain_chunk ch s
    = Normal (after_chunk ch s, (try_progressiveChromagram (chunk_of ch s) s).2)
  ∨ (length (sampleBuffer s) < Z.to_nat (uint (CHUNK_FRAMES * ch)))%nat
    ∧ drain_chunk ch s = Undefined.
Proof.
  destruct (decide (Z.to_nat (uint (CHUNK_FRAMES * ch)) ≤ length (sampleBuffer s))%nat).
  - left. split; [done|]. by apply drain_chunk_ok.
  - right. split; [lia|]. apply drain_chunk_short. lia.
Qed.

Lemma after_chunk_bookkeeping ch s :
  bookkeeping (after_chunk ch s)
  = (frameRate s, channels s,
     drop (Z.to_nat (uint (CHUNK_FRAMES * ch))) (sampleBuffer s),
     uint (bufferedFrames s - CHUNK_FRAMES)).
Proof.
  pose proof (try_progressiveChromagram_bookkeeping (chunk_of ch s) s) as Hb.
  unfold bookkeeping in *. injection Hb as Hfr Hch Hbuf Hbf.
  unfold after_chunk. simpl. by rewrite Hfr, Hch.
Qed.

Lemma sampleBuffer_after_chunk ch s :
  sampleBuffer (after_chunk ch s)
  = drop (Z.to_nat (uint (CHUNK_FRAMES * ch))) (sampleBuffer s).
Proof. reflexivity. Qed.

Lemma bufferedFrames_after_chunk ch s :
  bufferedFrames (after_chunk ch s) = uint (bufferedFrames s - CHUNK_FRAMES).
Proof. reflexivity. Qed.

Lemma after_chunk_turns ch s :
  CHUNK_FRAMES <= bufferedFrames s →
  (S (turns (after_chunk ch s)) ≤ turns s)%nat.
Proof.
  intros Hge. unfold turns.
  rewrite bufferedFrames_after_chunk.
  pose proof (uint_le (bufferedFrames s - CHUNK_FRAMES)) as Hle.
  pose proof (uint_is_uint (bufferedFrames s - CHUNK_FRAMES)) as [Hnn _].
  unfold CHUNK_FRAMES in *.
  assert (uint (bufferedFrames s - 16384) / 16384 <= (bufferedFrames s - 16384) / 16384)
    by (apply Z.div_le_mono; lia).
  assert ((bufferedFrames s - 16384) / 16384 = bufferedFrames s / 16384 - 1).
  { replace (bufferedFrames s - 16384) with (bufferedFrames s + (-1) * 16384) by lia.
    rewrite Z.div_add by lia. lia. }
  assert (0 <= uint (bufferedFrames s - 16384) / 16384) by (apply Z.div_pos; lia).
  lia.
Qed.

(** ** Fuel *)

Lemma drain_loop_fuel fuel1 fuel2 ch s :
  (turns s ≤ fuel1)%nat → (turns s ≤ fuel2)%nat →
  drain_loop fuel1 ch s = drain_loop fuel2 ch s.
Proof.
  revert fuel2 s. induction fuel1 as [|fuel1 IH]; intros fuel2 s H1 H2.
  - destruct fuel2 as [|fuel2]; [done|]. simpl.
    destruct (decide (CHUNK_FRAMES <= bufferedFrames s)) as [Hge|]; [|done].
    pose proof (after_chunk_turns ch s Hge). lia.
  - destruct fuel2 as [|fuel2]; simpl;
      destruct (decide (CHUNK_FRAMES <= bufferedFrames s)) as [Hge|]; try done.
    + pose proof (after_chunk_turns ch s Hge). lia.
    + pose proof (after_chunk_turns ch s Hge) as Ht.
      destruct (drain_chunk_cases ch s) as [[_ ->]|[_ ->]]; [|done]. simpl.
      rewrite (IH fuel2); [done | lia | lia].
Qed.

(** The loop always has the fuel it needs. *)
Lemma drain_loop_terminates fuel ch s :
  (turns s ≤ fuel)%nat → drain_loop fuel ch s ≠ OutOfFuel.
Proof.
  revert s. induction fuel as [|fuel IH]; intros s Hfuel; simpl;
    destruct (decide (CHUNK_FRAMES <= bufferedFrames s)) as [Hge|]; try done.
  - pose proof (after_chunk_turns ch s Hge). lia.
  - pose proof (after_chunk_turns ch s Hge) as Ht.
    destruct (drain_chunk_cases ch s) as [[_ ->]|[_ ->]]; [|done]. simpl.
    specialize (IH (after_chunk ch s) ltac:(lia)).
    destruct (drain_loop fuel ch (after_chunk ch s)) as [ [s2 evs] | | ]; done.
Qed.

Lemma turns_le_counter s : (turns s ≤ Z.to_nat (bufferedFrames s))%nat.
Proof.
  unfold turns, CHUNK_FRAMES.
  destruct (decide (0 <= bufferedFrames s)).
  - apply Z2Nat.inj_le; [apply Z.div_pos; lia | lia |].
    apply Z.div_le_upper_bound; lia.
  - assert (bufferedFrames s / 16384 < 0) by (apply Z.div_lt_upper_bound; lia).
    lia.
Qed.

Lemma drain_loop_below fuel ch s :
  bufferedFrames s < CHUNK_FRAMES → drain_loop fuel ch s = Normal (s, []).
Proof. intros Hlt. destruct fuel; simpl; by rewrite decide_False by lia. Qed.

Lemma drain_loop_S fuel ch s :
  CHUNK_FRAMES <= bufferedFrames s →
  drain_loop (S fuel) ch s
  = ('(s1, ev) ← drain_chunk ch s;
     '(s2, evs) ← drain_loop fuel ch s1;
     mret (s2, ev :: evs)).
Proof. intros Hge. simpl. by rewrite decide_True. Qed.

Lemma drain_loop_drain fuel ch s :
  (turns s ≤ fuel)%nat → drain_loop fuel ch s = drain ch s.
Proof. intros Hfuel. unfold drain. by apply drain_loop_fuel. Qed.

Lemma drain_done ch s :
  bufferedFrames s < CHUNK_FRAMES → drain ch s = Normal (s, []).
Proof.
  intros Hlt. unfold drain.
  destruct (turns s); simpl; by rewrite decide_False by lia.
Qed.

Lemma drain_turn ch s :
  CHUNK_FRAMES <= bufferedFrames s →
  drain ch s = ('(s1, ev) ← drain_chunk ch s;
                '(s2, evs) ← drain ch s1;
                mret (s2, ev :: evs)).
Proof.
  intros Hge. unfold drain at 1.
  pose proof (after_chunk_turns ch s Hge) as Ht.
  destruct (turns s) as [|fuel]; [lia|]. simpl.
  rewrite decide_True by done.
  destruct (drain_chunk_cases ch s) as [[_ ->]|[_ ->]]; [|done]. simpl.
  rewrite drain_loop_drain by lia. done.
Qed.

(** ** [kf_session_feed] as append followed by the loop *)

Lemma length_sampleBuffer_appended s xs n :
  length (sampleBuffer (appended s xs n))
  = (length (sampleBuffer s) + length xs)%nat.
Proof. simpl. by rewrite length_app, length_fmap. Qed.

Lemma bufferedFrames_appended s xs n :
  bufferedFrames (appended s xs n) = uint (bufferedFrames s + n).
Proof. reflexivity. Qed.

Lemma kf_session_feed_reads s samples n :
  n ≠ 0 → (Z.to_nat n ≤ length samples)%nat →
  kf_session_feed (Some s) (Some samples) n
  = ('(s', evs) ← drain (channels s) (appended s (take (Z.to_nat n) samples) n);
     mret (Some s', evs)).
Proof.
  intros Hn Hlen. unfold kf_session_feed.
  rewrite decide_False by done.
  rewrite push_samples_ok by lia. simpl. rewrite drop_0.
  fold (appended s (take (Z.to_nat n) samples) n).
  rewrite drain_loop_drain by apply turns_le_counter. done.
Qed.

Lemma push_samples_terminates samples buf i todo :
  push_samples samples buf i todo ≠ OutOfFuel.
Proof.
  revert buf i. induction todo as [|todo IH]; intros buf i; simpl; [done|].
  destruct (samples !! i); [apply IH | done].
Qed.

(** X1. The [while] loop of [kf_session_feed] terminates for every
    session, array and count, whatever the engine does: the call never
    runs out of the fuel it gives the loop. *)
Lemma kf_session_feed_terminates
    (session : option (kf_session KeyFinder Workspace))
    (array : option (list float)) (n : Z) :
  kf_session_feed session array n ≠ OutOfFuel.
Proof.
  destruct session as [s|], array as [smp|]; try done. simpl.
  destruct (decide (n = 0)); [done|].
  pose proof (push_samples_terminates smp (sampleBuffer s) 0 (Z.to_nat n)) as Hpush.
  destruct (push_samples smp (sampleBuffer s) 0 (Z.to_nat n)) as [buf| |]; try done.
  simpl.
  match goal with |- context [drain_loop ?f ?c ?t] =>
    pose proof (drain_loop_terminates f c t (turns_le_counter t)) as Hterm;
    destruct (drain_loop f c t) as [ [s' evs] | | ] end; done.
Qed.

(** ** Sessions of several channels *)

(** Once the counter asks for a turn of the loop while the buffer is no
    longer than the counter, a loop that takes at least two samples per
    counted frame reads past the end of the buffer. *)
Lemma drain_loop_short_buffer fuel ch s :
  2 * CHUNK_FRAMES <= uint (CHUNK_FRAMES * ch) →
  (turns s ≤ fuel)%nat →
  Z.of_nat (length (sampleBuffer s)) <= bufferedFrames s →
  is_uint (bufferedFrames s) →
  CHUNK_FRAMES <= bufferedFrames s →
  drain_loop fuel ch s = Undefined.
Proof.
  intros Hch. revert s.
  induction fuel as [|fuel IH]; intros s Hfuel Hlen Hu Hge.
  - pose proof (after_chunk_turns ch s Hge). lia.
  - simpl. rewrite decide_True by done.
    pose proof (after_chunk_turns ch s Hge) as Ht.
    destruct (drain_chunk_cases ch s) as [[Hn ->]|[_ ->]]; [|done]. simpl.
    rewrite IH; [done | lia | | | ].
    + rewrite sampleBuffer_after_chunk.
      rewrite bufferedFrames_after_chunk.
      rewrite length_drop, (uint_small (bufferedFrames s - CHUNK_FRAMES)); uint_lia.
    + apply uint_is_uint.
    + rewrite bufferedFrames_after_chunk.
      rewrite uint_small; uint_lia.
Qed.

Lemma drain_short_buffer ch s :
  2 * CHUNK_FRAMES <= uint (CHUNK_FRAMES * ch) →
  Z.of_nat (length (sampleBuffer s)) <= bufferedFrames s →
  is_uint (bufferedFrames s) →
  CHUNK_FRAMES <= bufferedFrames s →
  drain ch s = Undefined.
Proof. intros. by apply drain_loop_short_buffer. Qed.

(** A session with two or more channels whose buffer is no longer than
    its counter cannot take a call that brings the counter to
    [CHUNK_FRAMES]: the loop reads past the end of the buffer. *)
Lemma kf_session_feed_several_channels s samples n :
  2 * CHUNK_FRAMES <= uint (CHUNK_FRAMES * channels s) →
  Z.of_nat (length (sampleBuffer s)) <= bufferedFrames s →
  0 < n → bufferedFrames s + n < UINT_RANGE →
  CHUNK_FRAMES <= bufferedFrames s + n →
  (Z.to_nat n ≤ length samples)%nat →
  kf_session_feed (Some s) (Some samples) n = Undefined.
Proof.
  intros Hch Hbuf Hn Hsum Hge Hlen.
  rewrite kf_session_feed_reads by uint_lia.
  rewrite drain_short_buffer; [done | done | | | ]; simpl.
  - rewrite length_app, length_fmap, length_take, uint_small; uint_lia.
  - apply uint_is_uint.
  - rewrite uint_small; uint_lia.
Qed.

(** A call that stays below one chunk only appends. *)
Lemma kf_session_feed_below_chunk s samples n :
  0 <= bufferedFrames s → 0 < n → bufferedFrames s + n < CHUNK_FRAMES →
  (Z.to_nat n ≤ length samples)%nat →
  kf_session_feed (Some s) (Some samples) n
  = Normal (Some (appended s (take (Z.to_nat n) samples) n), []).
Proof.
  intros Hbf Hn Hlt Hlen.
  rewrite kf_session_feed_reads by lia.
  rewrite drain_done; [done|]. simpl. rewrite uint_small; uint_lia.
Qed.

(** [kf_session_create] establishes the buffer invariant. *)
Lemma kf_session_create_invariant frame_rate ch :
  buffer_invariant (kf_session_create frame_rate ch).
Proof. reflexivity. Qed.

(** X3. On a session with any number of channels other than one, a call
    that stays below one chunk breaks the buffer invariant: it appends one
    sample per counted frame. *)
Lemma kf_session_feed_breaks_invariant s samples n :
  buffer_invariant s → channels s ≠ 1 →
  0 <= bufferedFrames s → 0 < n → bufferedFrames s + n < CHUNK_FRAMES →
  (Z.to_nat n ≤ length samples)%nat →
  ∃ s', kf_session_feed (Some s) (Some samples) n = Normal (Some s', [])
        ∧ Z.of_nat (length (sampleBuffer s'))
          = Z.of_nat (length (sampleBuffer s)) + n
        ∧ bufferedFrames s' = bufferedFrames s + n
        ∧ ¬ buffer_invariant s'.
Proof.
  intros Hinv Hch Hbf Hn Hlt Hlen.
  rewrite kf_session_feed_below_chunk by done.
  eexists. split; [reflexivity|]. unfold buffer_invariant in *. simpl.
  rewrite length_app, length_fmap, length_take, uint_small by uint_lia.
  split; [lia|]. split; [done|]. nia.
Qed.

(** ** What the loop leaves behind *)

Lemma after_chunk_fields ch s :
  frameRate (after_chunk ch s) = frameRate s
  ∧ channels (after_chunk ch s) = channels s.
Proof.
  pose proof (after_chunk_bookkeeping ch s) as Hb.
  unfold bookkeeping in Hb. split; congruence.
Qed.

Lemma turns_after_chunk ch s :
  is_uint (bufferedFrames s) → CHUNK_FRAMES <= bufferedFrames s →
  turns s = S (turns (after_chunk ch s)).
Proof.
  intros Hu Hge. unfold turns.
  rewrite bufferedFrames_after_chunk.
  rewrite uint_small by uint_lia. unfold CHUNK_FRAMES in *.
  replace (bufferedFrames s) with ((bufferedFrames s - 16384) + 1 * 16384) at 1 by lia.
  rewrite Z.div_add by lia.
  assert (0 <= (bufferedFrames s - 16384) / 16384) by (apply Z.div_pos; lia).
  lia.
Qed.

(** The loop stops below one chunk and leaves rate and channels alone. *)
Lemma drain_loop_exit fuel ch s s' evs :
  drain_loop fuel ch s = Normal (s', evs) →
  bufferedFrames s' < CHUNK_FRAMES
  ∧ frameRate s' = frameRate s ∧ channels s' = channels s
  ∧ (is_uint (bufferedFrames s) → is_uint (bufferedFrames s'))
  ∧ (0 <= bufferedFrames s → bufferedFrames s' <= bufferedFrames s).
Proof.
  revert s evs. induction fuel as [|fuel IH]; intros s evs; simpl;
    destruct (decide (CHUNK_FRAMES <= bufferedFrames s)) as [Hge|Hlt]; try done.
  - intros [= <- <-]. repeat split; try done; uint_lia.
  - destruct (drain_chunk_cases ch s) as [[_ ->]|[_ ->]]; [|done]. simpl.
    destruct (drain_loop fuel ch (after_chunk ch s)) as [ [s2 evs2] | | ] eqn:Hrest;
      try done.
    simpl. intros [= <- <-].
    destruct (IH _ _ Hrest) as (Hlt & Hfr & Hch & Hu & Hle).
    destruct (after_chunk_fields ch s) as [Hfr' Hch'].
    rewrite bufferedFrames_after_chunk in *.
    pose proof (uint_is_uint (bufferedFrames s - CHUNK_FRAMES)) as Hu'.
    pose proof (uint_le (bufferedFrames s - CHUNK_FRAMES)).
    repeat split; try congruence; try (by auto); uint_lia.
  - intros [= <- <-]. repeat split; try done; uint_lia.
Qed.

(** ** Sessions of one channel *)

Lemma mono_chunkSamples : uint (CHUNK_FRAMES * 1) = CHUNK_FRAMES.
Proof. reflexivity. Qed.

Lemma blocks_S frame_rate ch k buf :
  blocks frame_rate ch (S k) buf
  = {| ad_frameRate := frame_rate; ad_channels := ch;
       ad_samples := take (Z.to_nat (uint (CHUNK_FRAMES * ch))) buf |}
    :: blocks frame_rate ch k (drop (Z.to_nat (uint (CHUNK_FRAMES * ch))) buf).
Proof. reflexivity. Qed.

Lemma length_blocks frame_rate ch k buf :
  length (blocks frame_rate ch k buf) = k.
Proof. revert buf. induction k as [|k IH]; intros buf; simpl; [done|]. by rewrite IH. Qed.

Lemma mono_session_after_chunk s :
  mono_session s → CHUNK_FRAMES <= bufferedFrames s →
  mono_session (after_chunk 1 s).
Proof.
  intros (Hch & Hu & Hinv) Hge. unfold mono_session, buffer_invariant in *.
  destruct (after_chunk_fields 1 s) as [_ Hch']. rewrite Hch', Hch in *.
  rewrite bufferedFrames_after_chunk.
  rewrite sampleBuffer_after_chunk.
  rewrite mono_chunkSamples, length_drop.
  rewrite uint_small by uint_lia.
  split; [done|]. split; uint_lia.
Qed.

(** A one-channel session always gets through the loop: every turn finds
    a full chunk in the buffer. *)
Lemma drain_loop_mono fuel s :
  mono_session s → (turns s ≤ fuel)%nat →
  ∃ s' evs,
    drain_loop fuel 1 s = Normal (s', evs)
    ∧ mono_session s'
    ∧ frameRate s' = frameRate s
    ∧ bufferedFrames s' = bufferedFrames s mod CHUNK_FRAMES
    ∧ submissions evs = blocks (frameRate s) 1 (turns s) (sampleBuffer s)
    ∧ sampleBuffer s'
      = drop (turns s * Z.to_nat CHUNK_FRAMES) (sampleBuffer s).
Proof.
  revert s. induction fuel as [|fuel IH]; intros s Hmono Hfuel.
  - assert (bufferedFrames s < CHUNK_FRAMES) as Hlt.
    { destruct (decide (CHUNK_FRAMES <= bufferedFrames s)) as [Hge|]; [|lia].
      pose proof (after_chunk_turns 1 s Hge). lia. }
    exists s, []. rewrite drain_loop_below by done.
    destruct Hmono as (Hch & Hu & Hinv).
    assert (turns s = O) as -> by (unfold turns; rewrite Z.div_small; uint_lia).
    rewrite Z.mod_small by uint_lia. by rewrite drop_0.
  - destruct (decide (CHUNK_FRAMES <= bufferedFrames s)) as [Hge|Hlt].
    + pose proof Hmono as (Hch & Hu & Hinv).
      pose proof (turns_after_chunk 1 s Hu Hge) as Hturns.
      destruct (IH (after_chunk 1 s)) as (s' & evs & Hrun & Hmono' & Hfr & Hbf & Hsub & Hbuf).
      { by apply mono_session_after_chunk. }
      { lia. }
      destruct (try_progressiveChromagram_event (chunk_of 1 s) s) as (ok & Hev & _).
      exists s', (ProgressiveChromagram (chunk_of 1 s) ok :: evs).
      rewrite drain_loop_S by done.
      rewrite drain_chunk_ok.
      2:{ unfold buffer_invariant in Hinv. rewrite mono_chunkSamples. uint_lia. }
      rewrite exec_bind_normal. cbv beta iota.
      rewrite Hrun, exec_bind_normal. cbv beta iota. rewrite Hev.
      destruct (after_chunk_fields 1 s) as [Hfr1 _].
      rewrite bufferedFrames_after_chunk in Hbf.
      rewrite sampleBuffer_after_chunk in *.
      split; [done|]. split; [done|]. split; [congruence|]. split; [|split].
      * rewrite Hbf, uint_small by uint_lia. unfold CHUNK_FRAMES.
        replace (bufferedFrames s) with ((bufferedFrames s - 16384) + 1 * 16384) at 2 by lia.
        by rewrite Z.mod_add by lia.
      * change (submissions (ProgressiveChromagram (chunk_of 1 s) ok :: evs))
          with (chunk_of 1 s :: submissions evs).
        by rewrite Hturns, blocks_S, Hsub, Hfr1.
      * rewrite Hbuf, drop_drop, Hturns, mono_chunkSamples.
        apply (f_equal (λ k, drop k (sampleBuffer s))). lia.
    + exists s, []. destruct Hmono as (Hch & Hu & Hinv).
      rewrite drain_loop_below by lia.
      assert (turns s = O) as -> by (unfold turns; rewrite Z.div_small; uint_lia).
      rewrite Z.mod_small by uint_lia. by rewrite drop_0.
Qed.

Lemma appended_nil s : is_uint (bufferedFrames s) → appended s [] 0 = s.
Proof.
  intros Hu. unfold appended, set_bufferedFrames, set_sampleBuffer. simpl.
  rewrite Z.add_0_r, uint_small, app_nil_r by done. by destruct s.
Qed.

Lemma mono_session_appended s xs :
  mono_session s →
  bufferedFrames s + Z.of_nat (length xs) < UINT_RANGE →
  mono_session (appended s xs (Z.of_nat (length xs))).
Proof.
  intros (Hch & Hu & Hinv) Hsum. unfold mono_session, buffer_invariant in *.
  simpl. rewrite length_app, length_fmap, uint_small by uint_lia.
  split; [done|]. split; uint_lia.
Qed.

(** A call that passes its whole array, on a session below one chunk. *)
Lemma kf_session_feed_whole s xs :
  is_uint (bufferedFrames s) → bufferedFrames s < CHUNK_FRAMES →
  kf_session_feed (Some s) (Some xs) (Z.of_nat (length xs))
  = ('(s', evs) ← drain (channels s) (appended s xs (Z.of_nat (length xs)));
     mret (Some s', evs)).
Proof.
  intros Hu Hlt. destruct (decide (length xs = O)) as [Hnil|Hcons].
  - apply length_zero_iff_nil in Hnil. subst xs. simpl.
    rewrite appended_nil, drain_done by done. done.
  - rewrite kf_session_feed_reads by lia.
    by rewrite Nat2Z.id, firstn_all.
Qed.

(** One call on a one-channel session: it returns, the counter is the
    remainder and the submissions are the full chunks, in order. *)
Lemma kf_session_feed_mono s xs :
  mono_session s → bufferedFrames s < CHUNK_FRAMES →
  bufferedFrames s + Z.of_nat (length xs) < UINT_RANGE →
  ∃ s' evs,
    kf_session_feed (Some s) (Some xs) (Z.of_nat (length xs)) = Normal (Some s', evs)
    ∧ mono_session s'
    ∧ frameRate s' = frameRate s
    ∧ bufferedFrames s'
      = (bufferedFrames s + Z.of_nat (length xs)) mod CHUNK_FRAMES
    ∧ submissions evs
      = blocks (frameRate s) 1
          (Z.to_nat ((bufferedFrames s + Z.of_nat (length xs)) / CHUNK_FRAMES))
          (sampleBuffer s ++ (static_cast_double <$> xs))
    ∧ sampleBuffer s'
      = drop (Z.to_nat ((bufferedFrames s + Z.of_nat (length xs)) / CHUNK_FRAMES)
              * Z.to_nat CHUNK_FRAMES)
          (sampleBuffer s ++ (static_cast_double <$> xs)).
Proof.
  intros Hmono Hlt Hsum. pose proof Hmono as (Hch & Hu & Hinv).
  rewrite kf_session_feed_whole by done. rewrite Hch. unfold drain.
  destruct (drain_loop_mono (turns (appended s xs (Z.of_nat (length xs))))
              (appended s xs (Z.of_nat (length xs))))
    as (s' & evs & Hrun & Hmono' & Hfr & Hbf & Hsub & Hbuf).
  { by apply mono_session_appended. }
  { done. }
  exists s', evs. rewrite Hrun. simpl.
  assert (turns (appended s xs (Z.of_nat (length xs)))
          = Z.to_nat ((bufferedFrames s + Z.of_nat (length xs)) / CHUNK_FRAMES)) as Ht.
  { unfold turns. simpl. by rewrite uint_small by uint_lia. }
  rewrite Ht in *. simpl in Hbf. rewrite uint_small in Hbf by uint_lia.
  done.
Qed.

Lemma kf_session_feed_zero s (array : option (list float)) :
  kf_session_feed (Some s) array 0 = Normal (Some s, []).
Proof. by destruct array. Qed.

(** ** Splitting a call *)

Lemma try_progressiveChromagram_appended audio s xs n :
  try_progressiveChromagram audio (appended s xs n)
  = (appended (try_progressiveChromagram audio s).1 xs n,
     (try_progressiveChromagram audio s).2).
Proof.
  unfold try_progressiveChromagram. simpl.
  by destruct (progressiveChromagram _ _ _) as [[[[]|] f] w].
Qed.

Lemma chunk_of_appended ch s xs n :
  (Z.to_nat (uint (CHUNK_FRAMES * ch)) ≤ length (sampleBuffer s))%nat →
  chunk_of ch (appended s xs n) = chunk_of ch s.
Proof.
  intros Hlen. unfold chunk_of. simpl. by rewrite take_app_le.
Qed.

Lemma after_chunk_appended ch s xs n :
  (Z.to_nat (uint (CHUNK_FRAMES * ch)) ≤ length (sampleBuffer s))%nat →
  is_uint (bufferedFrames s) → CHUNK_FRAMES <= bufferedFrames s →
  0 <= n → bufferedFrames s + n < UINT_RANGE →
  after_chunk ch (appended s xs n) = appended (after_chunk ch s) xs n.
Proof.
  intros Hlen Hu Hge Hn Hsum. unfold after_chunk.
  rewrite chunk_of_appended, try_progressiveChromagram_appended by done.
  unfold appended, set_bufferedFrames, set_sampleBuffer. simpl.
  pose proof (try_progressiveChromagram_bookkeeping (chunk_of ch s) s) as Hb.
  unfold bookkeeping in Hb.
  rewrite drop_app_le by done.
  rewrite (uint_small (bufferedFrames s + n)) by uint_lia.
  rewrite (uint_small (bufferedFrames s - CHUNK_FRAMES)) by uint_lia.
  rewrite (uint_small (bufferedFrames s + n - CHUNK_FRAMES)) by uint_lia.
  rewrite (uint_small (bufferedFrames s - CHUNK_FRAMES + n)) by uint_lia.
  f_equal. lia.
Qed.

(** Draining, appending and draining again is draining the whole. *)
Lemma drain_loop_appended fuel ch ys n t t' evs1 :
  (turns t ≤ fuel)%nat → is_uint (bufferedFrames t) →
  0 <= n → bufferedFrames t + n < UINT_RANGE →
  drain_loop fuel ch t = Normal (t', evs1) →
  drain ch (appended t ys n)
  = ('(t'', evs2) ← drain ch (appended t' ys n); mret (t'', evs1 ++ evs2)).
Proof.
  revert t evs1.
  induction fuel as [|fuel IH]; intros t evs1 Hfuel Hu Hn Hsum; simpl;
    destruct (decide (CHUNK_FRAMES <= bufferedFrames t)) as [Hge|Hlt]; try done.
  - intros [= <- <-].
    by destruct (drain ch (appended t ys n)) as [ [t2 evs2] | | ].
  - destruct (drain_chunk_cases ch t) as [[Hlen ->]|[_ ->]]; [|done]. simpl.
    destruct (drain_loop fuel ch (after_chunk ch t)) as [ [t1 evs] | | ] eqn:Hrest;
      try done.
    simpl. intros [= <- <-].
    pose proof (after_chunk_turns ch t Hge) as Ht.
    rewrite drain_turn by (simpl; rewrite uint_small; uint_lia).
    rewrite drain_chunk_ok by (simpl; rewrite length_app; lia).
    rewrite after_chunk_appended, chunk_of_appended,
      try_progressiveChromagram_appended by done.
    simpl.
    rewrite (IH (after_chunk ch t) evs); [| lia | apply uint_is_uint | done | | done].
    + by destruct (drain ch (appended t1 ys n)) as [ [t2 evs2] | | ].
    + rewrite bufferedFrames_after_chunk.
      rewrite uint_small; uint_lia.
  - intros [= <- <-].
    by destruct (drain ch (appended t ys n)) as [ [t2 evs2] | | ].
Qed.

Lemma appended_app s xs ys :
  is_uint (bufferedFrames s) →
  bufferedFrames s + Z.of_nat (length xs) + Z.of_nat (length ys) < UINT_RANGE →
  appended s (xs ++ ys) (Z.of_nat (length (xs ++ ys)))
  = appended (appended s xs (Z.of_nat (length xs))) ys (Z.of_nat (length ys)).
Proof.
  intros Hu Hsum. unfold appended, set_bufferedFrames, set_sampleBuffer. simpl.
  rewrite length_app, fmap_app, app_assoc.
  rewrite (uint_small (bufferedFrames s + Z.of_nat (length xs))) by uint_lia.
  f_equal. f_equal. lia.
Qed.

(** Two calls in a row are one call with the two arrays joined, whenever
    the first call returns. *)
Lemma kf_session_feed_app s xs ys s1 evs1 :
  is_uint (bufferedFrames s) → bufferedFrames s < CHUNK_FRAMES →
  bufferedFrames s + Z.of_nat (length xs) + Z.of_nat (length ys) < UINT_RANGE →
  kf_session_feed (Some s) (Some xs) (Z.of_nat (length xs)) = Normal (Some s1, evs1) →
  kf_session_feed (Some s) (Some (xs ++ ys)) (Z.of_nat (length (xs ++ ys)))
  = ('(session2, evs2) ← kf_session_feed (Some s1) (Some ys) (Z.of_nat (length ys));
     mret (session2, evs1 ++ evs2)).
Proof.
  intros Hu Hlt Hsum. rewrite !kf_session_feed_whole by done.
  destruct (drain (channels s) (appended s xs (Z.of_nat (length xs))))
    as [ [t1 e1] | | ] eqn:Hfirst; try done.
  intros Heq. simpl in Heq. injection Heq as -> ->.
  destruct (drain_loop_exit _ _ _ _ _ Hfirst) as (Hlt1 & _ & Hch1 & Hu1 & _).
  specialize (Hu1 (uint_is_uint _)). simpl in Hch1.
  rewrite kf_session_feed_whole by done.
  rewrite appended_app by done.
  rewrite (drain_loop_appended
             (turns (appended s xs (Z.of_nat (length xs)))) (channels s)
             ys (Z.of_nat (length ys))
             (appended s xs (Z.of_nat (length xs))) s1 evs1);
    [ | done | simpl; apply uint_is_uint | lia
      | simpl; rewrite uint_small; uint_lia | exact Hfirst ].
  rewrite Hch1.
  by destruct (drain (channels s) (appended s1 ys (Z.of_nat (length ys))))
    as [ [t2 e2] | | ].
Qed.

Lemma feed_all_cons (session : option (kf_session KeyFinder Workspace)) xs n calls :
  feed_all session ((xs, n) :: calls)
  = ('(session1, evs1) ← kf_session_feed session (Some xs) n;
     '(session2, evs2) ← feed_all session1 calls;
     mret (session2, evs1 ++ evs2)).
Proof. reflexivity. Qed.

Lemma submissions_app evs1 evs2 :
  submissions (evs1 ++ evs2) = submissions evs1 ++ submissions evs2.
Proof.
  induction evs1 as [|[audio ok| |] evs1 IH]; simpl; [done | | done | done].
  by rewrite IH.
Qed.

(** ** Sequences of calls on a one-channel session *)

Lemma chunk_count_add b a r :
  0 <= b → 0 <= a → 0 <= r →
  (Z.to_nat ((b + a) / CHUNK_FRAMES)
   + Z.to_nat (((b + a) mod CHUNK_FRAMES + r) / CHUNK_FRAMES))%nat
  = Z.to_nat ((b + (a + r)) / CHUNK_FRAMES).
Proof.
  intros Hb Ha Hr. unfold CHUNK_FRAMES.
  pose proof (Z.div_mod (b + a) 16384 ltac:(lia)) as Hdm.
  pose proof (Z.mod_pos_bound (b + a) 16384 ltac:(lia)) as Hm.
  assert (0 <= (b + a) / 16384) by (apply Z.div_pos; lia).
  assert (0 <= ((b + a) mod 16384 + r) / 16384) by (apply Z.div_pos; lia).
  replace (b + (a + r)) with (((b + a) mod 16384 + r) + (b + a) / 16384 * 16384) by lia.
  rewrite Z.div_add by lia. lia.
Qed.

(** Any sequence of calls, each passing a whole array of at most
    [UINT_RANGE - CHUNK_FRAMES] samples: all of them return, the counter
    ends as the remainder of the total and one block was submitted per
    full chunk. *)
Lemma feed_all_mono_counts pieces s :
  mono_session s → bufferedFrames s < CHUNK_FRAMES →
  Forall (λ xs, Z.of_nat (length xs) <= UINT_RANGE - CHUNK_FRAMES) pieces →
  ∃ s' evs,
    feed_all (Some s) (mono_call <$> pieces) = Normal (Some s', evs)
    ∧ mono_session s'
    ∧ bufferedFrames s' < CHUNK_FRAMES
    ∧ bufferedFrames s'
      = (bufferedFrames s + Z.of_nat (length (concat pieces))) mod CHUNK_FRAMES
    ∧ length (submissions evs)
      = Z.to_nat ((bufferedFrames s + Z.of_nat (length (concat pieces))) / CHUNK_FRAMES).
Proof.
  revert s. induction pieces as [|xs pieces IH]; intros s Hmono Hlt Hall.
  - exists s, []. destruct Hmono as (Hch & Hu & Hinv). simpl.
    rewrite Z.add_0_r, Z.mod_small, Z.div_small by uint_lia. done.
  - apply Forall_cons in Hall as [Hxs Hall].
    pose proof Hmono as (Hch & Hu & Hinv).
    destruct (kf_session_feed_mono s xs Hmono Hlt ltac:(uint_lia))
      as (s1 & evs1 & Hfeed & Hmono1 & _ & Hbf1 & Hsub1 & _).
    assert (bufferedFrames s1 < CHUNK_FRAMES) as Hlt1.
    { rewrite Hbf1. apply Z.mod_pos_bound. by unfold CHUNK_FRAMES. }
    destruct (IH s1 Hmono1 Hlt1 Hall) as (s' & evs & Hrest & Hmono' & Hlt' & Hbf' & Hsub').
    exists s', (evs1 ++ evs).
    rewrite fmap_cons. unfold mono_call at 1. rewrite feed_all_cons, Hfeed. simpl.
    rewrite Hrest. simpl.
    split; [done|]. split; [done|]. split; [done|].
    rewrite length_app, Nat2Z.inj_add. split.
    + rewrite Hbf', Hbf1, Zplus_mod_idemp_l. f_equal. lia.
    + rewrite submissions_app, length_app, Hsub', Hsub1, length_blocks, Hbf1.
      apply chunk_count_add; uint_lia.
Qed.

(** A sample stream cut into pieces and fed piece by piece: the same
    final session and the same engine calls as feeding it in one call. *)
Lemma feed_all_mono_concat pieces s :
  mono_session s → bufferedFrames s < CHUNK_FRAMES →
  bufferedFrames s + Z.of_nat (length (concat pieces)) < UINT_RANGE →
  feed_all (Some s) (mono_call <$> pieces)
  = kf_session_feed (Some s) (Some (concat pieces)) (Z.of_nat (length (concat pieces))).
Proof.
  revert s. induction pieces as [|xs pieces IH]; intros s Hmono Hlt Hsum.
  - done.
  - pose proof Hmono as (Hch & Hu & Hinv).
    change (concat (xs :: pieces)) with (xs ++ concat pieces) in *.
    rewrite length_app, Nat2Z.inj_add in Hsum.
    destruct (kf_session_feed_mono s xs Hmono Hlt ltac:(uint_lia))
      as (s1 & evs1 & Hfeed & Hmono1 & _ & Hbf1 & _).
    assert (bufferedFrames s1 < CHUNK_FRAMES) as Hlt1.
    { rewrite Hbf1. apply Z.mod_pos_bound. by unfold CHUNK_FRAMES. }
    assert (bufferedFrames s1 <= bufferedFrames s + Z.of_nat (length xs)) as Hle1.
    { rewrite Hbf1. apply Z.mod_le; uint_lia. }
    rewrite fmap_cons. unfold mono_call at 1.
    rewrite feed_all_cons, Hfeed, exec_bind_normal. cbv beta iota.
    rewrite IH by (done || lia).
    rewrite (kf_session_feed_app s xs (concat pieces) s1 evs1) by (done || lia).
    done.
Qed.

(** *** From a one-channel session just created *)

Lemma kf_session_create_mono frame_rate :
  mono_session (kf_session_create frame_rate 1).
Proof. split; [done|]. split; [by vm_compute | reflexivity]. Qed.

(** X4. On a one-channel session just created, any sequence of calls
    whose arrays hold [F] samples in total (each at most
    [UINT_RANGE - CHUNK_FRAMES]) returns and leaves [F mod CHUNK_FRAMES]
    frames buffered, fewer than a chunk, after [F / CHUNK_FRAMES]
    submissions, with the buffer invariant intact. *)
Lemma feed_all_create_mono frame_rate pieces :
  Forall (λ xs, Z.of_nat (length xs) <= UINT_RANGE - CHUNK_FRAMES) pieces →
  ∃ s' evs,
    feed_all (Some (kf_session_create frame_rate 1)) (mono_call <$> pieces)
    = Normal (Some s', evs)
    ∧ buffer_invariant s'
    ∧ bufferedFrames s' < CHUNK_FRAMES
    ∧ bufferedFrames s' = Z.of_nat (length (concat pieces)) mod CHUNK_FRAMES
    ∧ Z.of_nat (length (submissions evs))
      = Z.of_nat (length (concat pieces)) / CHUNK_FRAMES.
Proof.
  intros Hall.
  destruct (feed_all_mono_counts pieces (kf_session_create frame_rate 1)
              (kf_session_create_mono frame_rate) ltac:(by vm_compute) Hall)
    as (s' & evs & Hrun & (_ & _ & Hinv) & Hlt & Hbf & Hsub).
  exists s', evs. simpl in Hbf, Hsub.
  split; [done|]. split; [done|]. split; [done|]. split; [done|].
  rewrite Hsub, Z2Nat.id; [done|]. apply Z.div_pos; uint_lia.
Qed.

(** [3 * CHUNK_FRAMES + 100] frames in one call: three submissions and
    100 frames left. *)
Lemma kf_session_feed_create_mono_three_chunks frame_rate xs :
  Z.of_nat (length xs) = 3 * CHUNK_FRAMES + 100 →
  ∃ s' evs,
    kf_session_feed (Some (kf_session_create frame_rate 1)) (Some xs)
      (3 * CHUNK_FRAMES + 100)
    = Normal (Some s', evs)
    ∧ bufferedFrames s' = 100
    ∧ length (submissions evs) = 3%nat.
Proof.
  intros Hlen.
  destruct (kf_session_feed_mono (kf_session_create frame_rate 1) xs
              (kf_session_create_mono frame_rate) ltac:(by vm_compute)
              ltac:(rewrite Hlen; by vm_compute))
    as (s' & evs & Hrun & _ & _ & Hbf & Hsub & _).
  rewrite Hlen in *. exists s', evs.
  split; [done|]. split; [exact Hbf|]. by rewrite Hsub, length_blocks.
Qed.

(** X5. On a one-channel session just created, a stream of fewer than
    [UINT_RANGE] samples cut into pieces and fed piece by piece gives the
    same outcome, the same final session and the same engine calls as the
    stream fed in one call. *)
Lemma feed_all_create_mono_concat frame_rate pieces :
  Z.of_nat (length (concat pieces)) < UINT_RANGE →
  feed_all (Some (kf_session_create frame_rate 1)) (mono_call <$> pieces)
  = kf_session_feed (Some (kf_session_create frame_rate 1))
      (Some (concat pieces)) (Z.of_nat (length (concat pieces))).
Proof.
  intros Hsum. apply feed_all_mono_concat.
  - apply kf_session_create_mono.
  - by vm_compute.
  - simpl. lia.
Qed.

(** ** [kf_session_get_key] *)

(** C6. [kf_session_get_key] answers silence, the value 24, without any
    call to the engine when the handle is null or [hasData] is false, so
    in particular on a session just created; with [hasData] set it asks
    the engine once and answers silence when that call throws, and the
    engine's key, with its integer value kept, when it returns. *)
Theorem kf_session_get_key_silence :
  @kf_session_get_key _ KeyFinder Workspace _ None = (24, None, [])
  ∧ (∀ s, hasData s = false →
       kf_session_get_key (Some s) = (24, Some s, []))
  ∧ (∀ frame_rate ch,
       kf_session_get_key (Some (kf_session_create frame_rate ch))
       = (24, Some (kf_session_create frame_rate ch), []))
  ∧ (∀ s f w, hasData s = true →
       keyOfChromagram (finder s) (workspace s) = (Throws, f, w) →
       kf_session_get_key (Some s)
       = (24, Some (set_engine f w s), [KeyOfChromagram None]))
  ∧ (∀ s key f w, hasData s = true →
       keyOfChromagram (finder s) (workspace s) = (Returns key, f, w) →
       kf_session_get_key (Some s)
       = (key, Some (set_engine f w s), [KeyOfChromagram (Some key)])).
Proof.
  split; [reflexivity|]. split; [|split; [|split]].
  - intros s Hno. unfold kf_session_get_key. by rewrite Hno.
  - reflexivity.
  - intros s f w Hdata Hthrow. unfold kf_session_get_key.
    by rewrite Hdata, Hthrow.
  - intros s key f w Hdata Hret. unfold kf_session_get_key.
    by rewrite Hdata, Hret.
Qed.

Lemma kf_session_get_key_read_only (session : option (kf_session KeyFinder Workspace)) :
  (∀ f w, (keyOfChromagram f w).1.2 = f ∧ (keyOfChromagram f w).2 = w) →
  (kf_session_get_key session).1.2 = session.
Proof.
  intros Hconst. destruct session as [s|]; [|done]. simpl.
  destruct (hasData s); simpl; [|done].
  destruct (Hconst (finder s) (workspace s)) as [Hf Hw].
  destruct (keyOfChromagram (finder s) (workspace s)) as [[[k|] f] w];
    simpl in *; subst f w; by destruct s.
Qed.

(** C8. [kf_session_get_key] leaves [sampleBuffer], [bufferedFrames],
    [hasData], [frameRate] and [channels] as they were, for every session
    and every engine; and when the engine's classification is a read-only
    query (it changes neither the finder nor the workspace, as a [const]
    member function on a [const] workspace), the session as a whole is
    unchanged and a second call returns the same key. *)
Theorem kf_session_get_key_idempotent (session : option (kf_session KeyFinder Workspace)) :
  ∃ key session' evs,
    kf_session_get_key session = (key, session', evs)
    ∧ match session, session' with
      | Some s, Some s' =>
          sampleBuffer s' = sampleBuffer s
          ∧ bufferedFrames s' = bufferedFrames s
          ∧ hasData s' = hasData s
          ∧ frameRate s' = frameRate s
          ∧ channels s' = channels s
      | None, None => True
      | _, _ => False
      end
    ∧ ((∀ f w, (keyOfChromagram f w).1.2 = f ∧ (keyOfChromagram f w).2 = w) →
       session' = session
       ∧ ∃ evs', kf_session_get_key session' = (key, session', evs')).
Proof.
  destruct (kf_session_get_key session) as [[key session'] evs] eqn:Hcall.
  exists key, session', evs. split; [done|]. split.
  - destruct session as [s|]; simpl in Hcall.
    + destruct (hasData s) eqn:Hdata; simpl in Hcall.
      * destruct (keyOfChromagram (finder s) (workspace s)) as [[[k|] f] w];
          injection Hcall as <- <- <-; simpl; done.
      * by injection Hcall as <- <- <-.
    + by injection Hcall as <- <- <-.
  - intros Hconst.
    pose proof (kf_session_get_key_read_only session Hconst) as Hsame.
    rewrite Hcall in Hsame. simpl in Hsame. subst session'.
    split; [done|]. by exists evs.
Qed.

(** ** [kf_session_finalize] *)

(** The flush of the partial chunk, on a session whose buffer holds
    [channels] samples per counted frame. *)
Lemma flush_remaining_ok s :
  is_uint (bufferedFrames s) →
  is_uint (bufferedFrames s * channels s) →
  buffer_invariant s →
  ∃ s1 flushed,
    flush_remaining s = Normal (s1, flushed)
    ∧ (if decide (0 < bufferedFrames s)
       then ∃ ok,
           flushed = [ProgressiveChromagram
                        {| ad_frameRate := frameRate s;
                           ad_channels := channels s;
                           ad_samples := sampleBuffer s |} ok]
           ∧ hasData s1 = (ok || hasData s)
       else flushed = [] ∧ hasData s1 = hasData s)
    ∧ sampleBuffer s1 = [] ∧ bufferedFrames s1 = 0
    ∧ frameRate s1 = frameRate s ∧ channels s1 = channels s.
Proof.
  intros Hu Hprod Hinv. unfold flush_remaining, buffer_invariant in *.
  destruct (decide (0 < bufferedFrames s)) as [Hpos|Hzero].
  - assert (Z.to_nat (uint (bufferedFrames s * channels s))
            = length (sampleBuffer s)) as Hall
      by (rewrite uint_small by done; lia).
    rewrite make_audio_ok by lia. rewrite Hall, firstn_all. simpl.
    set (audio := {| ad_frameRate := frameRate s; ad_channels := channels s;
                     ad_samples := sampleBuffer s |}).
    destruct (try_progressiveChromagram_event audio s) as (ok & Hev & Hdata).
    pose proof (try_progressiveChromagram_bookkeeping audio s) as Hb.
    destruct (try_progressiveChromagram audio s) as [s1 ev]. simpl in *.
    unfold bookkeeping in Hb. eexists _, _. split; [reflexivity|]. simpl.
    split; [exists ok; by subst ev|]. repeat split; congruence.
  - exists s, []. split; [done|]. split; [done|].
    assert (bufferedFrames s = 0) as Hbf by uint_lia.
    rewrite Hbf in *. split; [|done]. apply nil_length_inv. lia.
Qed.

(** X6. On a session that satisfies the buffer invariant of the data model,
    [kf_session_finalize] returns; when frames are buffered it first
    submits the whole buffer as one block tagged with the session's rate
    and channels; whether that submission returned or threw, the buffer is
    empty and the counter zero afterwards; then it calls [finalChromagram]
    and, if that returned, [keyOfChromagram], and the result is the
    engine's key, or silence (24) if either call threw. *)
Lemma kf_session_finalize_flushes s :
  is_uint (bufferedFrames s) →
  is_uint (bufferedFrames s * channels s) →
  buffer_invariant s →
  ∃ key s' flushed closing,
    kf_session_finalize (Some s) = Normal (key, Some s', flushed ++ closing)
    ∧ (if decide (0 < bufferedFrames s)
       then ∃ ok,
           flushed = [ProgressiveChromagram
                        {| ad_frameRate := frameRate s;
                           ad_channels := channels s;
                           ad_samples := sampleBuffer s |} ok]
           ∧ hasData s' = (ok || hasData s)
       else flushed = [] ∧ hasData s' = hasData s)
    ∧ sampleBuffer s' = [] ∧ bufferedFrames s' = 0
    ∧ frameRate s' = frameRate s ∧ channels s' = channels s
    ∧ (closing = [FinalChromagram false] ∧ key = 24
       ∨ closing = [FinalChromagram true; KeyOfChromagram None] ∧ key = 24
       ∨ closing = [FinalChromagram true; KeyOfChromagram (Some key)]).
Proof.
  intros Hu Hprod Hinv.
  destruct (flush_remaining_ok s Hu Hprod Hinv)
    as (s1 & flushed & Hflush & Hflushed & Hbuf & Hbf & Hfr & Hch).
  unfold kf_session_finalize. rewrite Hflush, exec_bind_normal. cbv beta iota.
  destruct (finalChromagram (finder s1) (workspace s1)) as [[[[]|] f] w].
  - simpl.
    destruct (keyOfChromagram f w) as [[[key|] f'] w'].
    + exists (static_cast_kf_key_t key), (set_engine f' w' (set_engine f w s1)),
        flushed, [FinalChromagram true; KeyOfChromagram (Some key)].
      split; [done|]. split; [done|]. repeat split; try done. by right; right.
    + exists (kf_key_value KF_SILENCE), (set_engine f' w' (set_engine f w s1)),
        flushed, [FinalChromagram true; KeyOfChromagram None].
      split; [done|]. split; [done|]. repeat split; try done. by right; left.
  - exists (kf_key_value KF_SILENCE), (set_engine f w s1),
      flushed, [FinalChromagram false].
    split; [done|]. split; [done|]. repeat split; try done. by left.
Qed.

(** C10. [kf_session_finalize] has no [hasData] guard.  On a session that
    never submitted anything ([hasData] false, nothing buffered), where
    [kf_session_get_key] answers silence without touching the engine,
    [kf_session_finalize] calls [finalChromagram] on the session's
    workspace and then, if that returned, [keyOfChromagram]; its result is
    the engine's key, and silence only if one of the two calls threw. *)
Theorem kf_session_finalize_unguarded s :
  hasData s = false → bufferedFrames s = 0 → sampleBuffer s = [] →
  kf_session_get_key (Some s) = (24, Some s, [])
  ∧ ∃ key s' closing,
      kf_session_finalize (Some s) = Normal (key, Some s', closing)
      ∧ match finalChromagram (finder s) (workspace s) with
        | (Throws, _, _) => closing = [FinalChromagram false] ∧ key = 24
        | (Returns _, f, w) =>
            match keyOfChromagram f w with
            | (Throws, _, _) =>
                closing = [FinalChromagram true; KeyOfChromagram None]
                ∧ key = 24
            | (Returns k, _, _) =>
                closing = [FinalChromagram true; KeyOfChromagram (Some k)]
                ∧ key = k
            end
        end.
Proof.
  intros Hdata Hbf Hbuf. split.
  - unfold kf_session_get_key. by rewrite Hdata.
  - unfold kf_session_finalize, flush_remaining.
    rewrite decide_False by lia. rewrite exec_bind_normal. cbv beta iota.
    destruct (finalChromagram (finder s) (workspace s)) as [[[[]|] f] w].
    + simpl. destruct (keyOfChromagram f w) as [[[key|] f'] w']; by eexists _, _, _.
    + by eexists _, _, _.
Qed.

Lemma kf_session_finalize_null :
  @kf_session_finalize _ KeyFinder Workspace _ None = Normal (24, None, []).
Proof. reflexivity. Qed.

(** ** Engine failures inside [kf_session_feed] *)

(** One turn of the loop, whatever the engine does with the block. *)
Lemma drain_chunk_swallows ch s :
  (Z.to_nat (uint (CHUNK_FRAMES * ch)) ≤ length (sampleBuffer s))%nat →
  ∃ t ok,
    drain_chunk ch s = Normal (t, ProgressiveChromagram (chunk_of ch s) ok)
    ∧ bookkeeping t
      = (frameRate s, channels s,
         drop (Z.to_nat (uint (CHUNK_FRAMES * ch))) (sampleBuffer s),
         uint (bufferedFrames s - CHUNK_FRAMES))
    ∧ hasData t = (ok || hasData s)
    ∧ (progressiveChromagram (finder s) (chunk_of ch s) (workspace s)).1.1
      = if ok then Returns tt else Throws.
Proof.
  intros Hlen.
  destruct (try_progressiveChromagram_event (chunk_of ch s) s) as (ok & Hev & Hdata).
  exists (after_chunk ch s), ok.
  rewrite drain_chunk_ok, Hev by done.
  split; [done|]. split; [apply after_chunk_bookkeeping|].
  split; [exact Hdata | by apply try_progressiveChromagram_returned].
Qed.

(** [hasData] after the loop: set by the submissions that returned, and
    by nothing else. *)
Lemma drain_loop_hasData fuel ch s t evs :
  drain_loop fuel ch s = Normal (t, evs) →
  hasData t = match accepted evs with [] => hasData s | _ => true end.
Proof.
  revert s evs. induction fuel as [|fuel IH]; intros s evs; simpl;
    destruct (decide (CHUNK_FRAMES <= bufferedFrames s)) as [Hge|Hlt]; try done.
  - by intros [= <- <-].
  - destruct (drain_chunk_cases ch s) as [[_ ->]|[_ ->]]; [|done]. simpl.
    destruct (drain_loop fuel ch (after_chunk ch s)) as [ [t1 evs1] | | ] eqn:Hrest;
      try done.
    simpl. intros [= <- <-]. rewrite (IH _ _ Hrest).
    destruct (try_progressiveChromagram_event (chunk_of ch s) s) as (ok & -> & Hdata).
    change (hasData (after_chunk ch s))
      with (hasData (try_progressiveChromagram (chunk_of ch s) s).1).
    rewrite Hdata. destruct ok; simpl; [|done]. by destruct (accepted evs1).
  - by intros [= <- <-].
Qed.

Lemma kf_session_feed_hasData s (array : option (list float)) n t evs :
  kf_session_feed (Some s) array n = Normal (Some t, evs) →
  hasData t = match accepted evs with [] => hasData s | _ => true end.
Proof.
  destruct array as [smp|]; simpl; [|by intros [= <- <-]].
  destruct (decide (n = 0)); [by intros [= <- <-]|].
  destruct (push_samples smp (sampleBuffer s) 0 (Z.to_nat n)) as [buf| |]; try done.
  simpl.
  match goal with |- context [drain_loop ?f ?c ?u] =>
    destruct (drain_loop f c u) as [ [t' evs'] | | ] eqn:Hloop end; try done.
  simpl. intros [= <- <-]. by rewrite (drain_loop_hasData _ _ _ _ _ Hloop).
Qed.

End Wrapper.

(** * The key enumeration *)

(** C9. The enumerators of [kf_key_t] have the values 0 to 24 in the order
    A major, A minor, B-flat major, B-flat minor, B major, B minor, C major,
    C minor, D-flat major, D-flat minor, D major, D minor, E-flat major,
    E-flat minor, E major, E minor, F major, F minor, G-flat major, G-flat
    minor, G major, G minor, A-flat major, A-flat minor, silence; there are
    no other enumerators and no value is used twice. *)
Theorem kf_key_t_numbering :
  kf_key_value KF_A_MAJOR = 0 ∧ kf_key_value KF_A_MINOR = 1
  ∧ kf_key_value KF_B_FLAT_MAJOR = 2 ∧ kf_key_value KF_B_FLAT_MINOR = 3
  ∧ kf_key_value KF_B_MAJOR = 4 ∧ kf_key_value KF_B_MINOR = 5
  ∧ kf_key_value KF_C_MAJOR = 6 ∧ kf_key_value KF_C_MINOR = 7
  ∧ kf_key_value KF_D_FLAT_MAJOR = 8 ∧ kf_key_value KF_D_FLAT_MINOR = 9
  ∧ kf_key_value KF_D_MAJOR = 10 ∧ kf_key_value KF_D_MINOR = 11
  ∧ kf_key_value KF_E_FLAT_MAJOR = 12 ∧ kf_key_value KF_E_FLAT_MINOR = 13
  ∧ kf_key_value KF_E_MAJOR = 14 ∧ kf_key_value KF_E_MINOR = 15
  ∧ kf_key_value KF_F_MAJOR = 16 ∧ kf_key_value KF_F_MINOR = 17
  ∧ kf_key_value KF_G_FLAT_MAJOR = 18 ∧ kf_key_value KF_G_FLAT_MINOR = 19
  ∧ kf_key_value KF_G_MAJOR = 20 ∧ kf_key_value KF_G_MINOR = 21
  ∧ kf_key_value KF_A_FLAT_MAJOR = 22 ∧ kf_key_value KF_A_FLAT_MINOR = 23
  ∧ kf_key_value KF_SILENCE = 24
  ∧ (snd <$> enumerator_values 0 kf_key_t_enumerators) = seqZ 0 25
  ∧ (∀ k, kf_key_of_value (kf_key_value k) = Some k).
Proof.
  repeat split; try reflexivity. intros []; reflexivity.
Qed.

(** * Further properties of the operations *)

Section Operations.
Context `{Numerics} {KeyFinder Workspace : Type} `{!Engine KeyFinder Workspace}.
Implicit Types s t : kf_session KeyFinder Workspace.
Implicit Types samples xs : list float.

(** ** What a call that returns has done *)

Lemma block_samples_cons audio ok evs :
  block_samples (ProgressiveChromagram audio ok :: evs)
  = ad_samples audio ++ block_samples evs.
Proof. reflexivity. Qed.

Lemma block_samples_app evs1 evs2 :
  block_samples (evs1 ++ evs2) = block_samples evs1 ++ block_samples evs2.
Proof.
  unfold block_samples. by rewrite submissions_app, fmap_app, concat_app.
Qed.

(** The loop, when it returns: the counter is the remainder, every event
    is the submission of one chunk, and the chunks followed by what is left
    in the buffer are the buffer the loop started with. *)
Lemma drain_loop_normal fuel ch s s' evs :
  is_uint (bufferedFrames s) →
  drain_loop fuel ch s = Normal (s', evs) →
  bufferedFrames s' = bufferedFrames s mod CHUNK_FRAMES
  ∧ length evs = turns s
  ∧ Forall (chunk_event (frameRate s) ch) evs
  ∧ block_samples evs ++ sampleBuffer s' = sampleBuffer s.
Proof.
  revert s evs. induction fuel as [|fuel IH]; intros s evs Hu;
    destruct (decide (CHUNK_FRAMES <= bufferedFrames s)) as [Hge|Hlt].
  - simpl. by rewrite decide_True.
  - rewrite drain_loop_below by lia. intros [= <- <-].
    assert (turns s = O) as -> by (unfold turns; rewrite Z.div_small; uint_lia).
    rewrite Z.mod_small by uint_lia. done.
  - rewrite drain_loop_S by done.
    destruct (drain_chunk_cases ch s) as [[Hlen ->]|[_ ->]]; [|done].
    rewrite exec_bind_normal. cbv beta iota.
    destruct (drain_loop fuel ch (after_chunk ch s)) as [ [s2 evs2] | | ] eqn:Hrest;
      try done.
    rewrite exec_bind_normal. cbv beta iota. intros [= <- <-].
    destruct (IH (after_chunk ch s) evs2) as (Hbf & Hcount & Hall & Hkeep);
      [rewrite bufferedFrames_after_chunk; apply uint_is_uint | done |].
    destruct (try_progressiveChromagram_event (chunk_of ch s) s) as (ok & -> & _).
    destruct (after_chunk_fields ch s) as [Hfr _].
    rewrite bufferedFrames_after_chunk, uint_small in Hbf by uint_lia.
    rewrite sampleBuffer_after_chunk in Hkeep. rewrite Hfr in Hall.
    split; [|split; [|split]].
    + rewrite Hbf. unfold CHUNK_FRAMES.
      replace (bufferedFrames s) with ((bufferedFrames s - 16384) + 1 * 16384) at 2 by lia.
      by rewrite Z.mod_add by lia.
    + rewrite (turns_after_chunk ch s) by done. simpl. by rewrite Hcount.
    + constructor; [|done]. unfold chunk_event, chunk_of.
      cbn [ad_frameRate ad_channels ad_samples].
      split; [done|]. split; [done|]. rewrite length_take. lia.
    + rewrite block_samples_cons. unfold chunk_of. cbn [ad_samples].
      rewrite <- app_assoc, Hkeep. apply take_drop.
  - rewrite drain_loop_below by lia. intros [= <- <-].
    assert (turns s = O) as -> by (unfold turns; rewrite Z.div_small; uint_lia).
    rewrite Z.mod_small by uint_lia. done.
Qed.

Lemma sampleBuffer_appended s xs n :
  sampleBuffer (appended s xs n) = sampleBuffer s ++ (static_cast_double <$> xs).
Proof. reflexivity. Qed.

Lemma frameRate_appended s xs n : frameRate (appended s xs n) = frameRate s.
Proof. reflexivity. Qed.

Lemma is_uint_appended s xs n : is_uint (bufferedFrames (appended s xs n)).
Proof. apply uint_is_uint. Qed.

(** A call that returns has read [sample_count] samples of the array and
    run the loop on the appended state. *)
Lemma kf_session_feed_normal s samples n s' evs :
  n ≠ 0 →
  kf_session_feed (Some s) (Some samples) n = Normal (Some s', evs) →
  (Z.to_nat n ≤ length samples)%nat
  ∧ drain (channels s) (appended s (take (Z.to_nat n) samples) n) = Normal (s', evs).
Proof.
  intros Hn. destruct (decide (Z.to_nat n ≤ length samples)%nat) as [Hlen|Hshort].
  - rewrite kf_session_feed_reads by done.
    destruct (drain _ _) as [ [t evs'] | | ]; try done.
    rewrite exec_bind_normal. cbv beta iota. by intros [= <- <-].
  - unfold kf_session_feed. rewrite decide_False by done.
    rewrite push_samples_short by lia. done.
Qed.

(** X7. Whatever the channel count, a call that returns leaves a counter
    below [CHUNK_FRAMES] equal to the old counter plus the call's count
    modulo [CHUNK_FRAMES] (a wrap of the 32-bit counter does not change
    that remainder), has called the engine once per full chunk of the
    wrapped counter, and has changed neither rate nor channels. *)
Theorem kf_session_feed_counter s samples n s' evs :
  n ≠ 0 →
  kf_session_feed (Some s) (Some samples) n = Normal (Some s', evs) →
  0 <= bufferedFrames s' < CHUNK_FRAMES
  ∧ bufferedFrames s' = (bufferedFrames s + n) mod CHUNK_FRAMES
  ∧ Z.of_nat (length evs) = uint (bufferedFrames s + n) / CHUNK_FRAMES
  ∧ frameRate s' = frameRate s
  ∧ channels s' = channels s.
Proof.
  intros Hn Hfeed.
  destruct (kf_session_feed_normal _ _ _ _ _ Hn Hfeed) as [_ Hloop].
  unfold drain in Hloop.
  destruct (drain_loop_normal _ _ _ _ _ (is_uint_appended _ _ _) Hloop)
    as (Hbf & Hcount & _ & _).
  destruct (drain_loop_exit _ _ _ _ _ Hloop) as (_ & Hfr & Hch & _ & _).
  rewrite bufferedFrames_appended, uint_mod_chunk in Hbf.
  split; [rewrite Hbf; apply Z.mod_pos_bound; by unfold CHUNK_FRAMES|].
  split; [exact Hbf|]. split; [|by split].
  rewrite Hcount. unfold turns. rewrite bufferedFrames_appended.
  apply Z2Nat.id, Z.div_pos; [apply uint_is_uint | by unfold CHUNK_FRAMES].
Qed.

(** X9. The only engine calls [kf_session_feed] makes are submissions,
    and every block it submits carries the session's rate and channel
    count and holds exactly [CHUNK_FRAMES * channels] samples (as an
    [unsigned int] product). *)
Theorem kf_session_feed_submits_chunks s samples n s' evs :
  n ≠ 0 →
  kf_session_feed (Some s) (Some samples) n = Normal (Some s', evs) →
  Forall (chunk_event (frameRate s) (channels s)) evs
  ∧ final_calls evs = O.
Proof.
  intros Hn Hfeed.
  destruct (kf_session_feed_normal _ _ _ _ _ Hn Hfeed) as [_ Hloop].
  unfold drain in Hloop.
  destruct (drain_loop_normal _ _ _ _ _ (is_uint_appended _ _ _) Hloop)
    as (_ & _ & Hall & _).
  split; [exact Hall|].
  clear -Hall. induction Hall as [|ev evs Hev _ IH]; [done|].
  by destruct ev.
Qed.

(** X14. A call that returns neither drops nor reorders samples: the
    blocks it submitted, laid end to end, followed by what it left in the
    buffer, are the old buffer followed by the first [sample_count]
    samples of the array, converted. *)
Theorem kf_session_feed_keeps_samples s samples n s' evs :
  n ≠ 0 →
  kf_session_feed (Some s) (Some samples) n = Normal (Some s', evs) →
  block_samples evs ++ sampleBuffer s'
  = sampleBuffer s ++ (static_cast_double <$> take (Z.to_nat n) samples).
Proof.
  intros Hn Hfeed.
  destruct (kf_session_feed_normal _ _ _ _ _ Hn Hfeed) as [_ Hloop].
  unfold drain in Hloop.
  by destruct (drain_loop_normal _ _ _ _ _ (is_uint_appended _ _ _) Hloop)
    as (_ & _ & _ & Hkeep).
Qed.

(** ** [hasData] *)

Lemma kf_session_finalize_hasData s key s' evs :
  kf_session_finalize (Some s) = Normal (key, Some s', evs) →
  hasData s = true → hasData s' = true.
Proof.
  unfold kf_session_finalize, flush_remaining. intros Hrun Hdata.
  destruct (decide (0 < bufferedFrames s)).
  - destruct (make_audio s (channels s) (uint (bufferedFrames s * channels s)))
      as [audio| |]; try done.
    rewrite exec_bind_normal in Hrun.
    destruct (try_progressiveChromagram_event audio s) as (ok & _ & Hset).
    destruct (try_progressiveChromagram audio s) as [s1 ev]. simpl in Hset.
    rewrite Hdata, orb_true_r in Hset.
    rewrite exec_bind_normal in Hrun. cbv beta iota in Hrun.
    destruct (finalChromagram _ _) as [[[[]|] f] w];
      [destruct (keyOfChromagram _ _) as [[[k|] f'] w']|];
      injection Hrun as _ <- _; exact Hset.
  - rewrite exec_bind_normal in Hrun. cbv beta iota in Hrun.
    destruct (finalChromagram _ _) as [[[[]|] f] w];
      [destruct (keyOfChromagram _ _) as [[[k|] f'] w']|];
      injection Hrun as _ <- _; exact Hdata.
Qed.

(** X8. [hasData] is never cleared: once it is set, it is still set after
    any call of [kf_session_feed], [kf_session_get_key] or
    [kf_session_finalize] that returns, whatever the engine did. *)
Theorem hasData_stays_set s :
  hasData s = true →
  (∀ (array : option (list float)) n s' evs,
     kf_session_feed (Some s) array n = Normal (Some s', evs) →
     hasData s' = true)
  ∧ (∀ key s' evs,
       kf_session_get_key (Some s) = (key, Some s', evs) → hasData s' = true)
  ∧ (∀ key s' evs,
       kf_session_finalize (Some s) = Normal (key, Some s', evs) →
       hasData s' = true).
Proof.
  intros Hdata. split; [|split].
  - intros array n s' evs Hfeed.
    rewrite (kf_session_feed_hasData _ _ _ _ _ Hfeed), Hdata.
    by destruct (accepted evs).
  - intros key s' evs. unfold kf_session_get_key. rewrite Hdata. simpl.
    destruct (keyOfChromagram _ _) as [[[k|] f] w]; by intros [= _ <- _].
  - intros key s' evs Hrun. by apply (kf_session_finalize_hasData _ _ _ _ Hrun).
Qed.

(** ** Below one chunk, and exactly one chunk *)

(** X12. On a session whose [hasData] is false, a call that keeps the
    counter below [CHUNK_FRAMES] only appends: no engine call, the counted
    samples at the end of the buffer, the counter raised by the count, for
    any channel count; and [kf_session_get_key] afterwards answers silence
    without an engine call. *)
Theorem kf_session_feed_below_chunk_silent s samples n :
  hasData s = false →
  0 <= bufferedFrames s → 0 < n → bufferedFrames s + n < CHUNK_FRAMES →
  (Z.to_nat n ≤ length samples)%nat →
  ∃ s',
    kf_session_feed (Some s) (Some samples) n = Normal (Some s', [])
    ∧ sampleBuffer s'
      = sampleBuffer s ++ (static_cast_double <$> take (Z.to_nat n) samples)
    ∧ bufferedFrames s' = bufferedFrames s + n
    ∧ kf_session_get_key (Some s') = (24, Some s', []).
Proof.
  intros Hdata Hbf Hn Hlt Hlen.
  exists (appended s (take (Z.to_nat n) samples) n).
  rewrite kf_session_feed_below_chunk by done.
  split; [done|]. split; [done|]. split.
  - rewrite bufferedFrames_appended, uint_small; uint_lia.
  - unfold kf_session_get_key.
    change (hasData (appended s (take (Z.to_nat n) samples) n)) with (hasData s).
    by rewrite Hdata.
Qed.

(** X11. On a one-channel session just created, a call with exactly
    [CHUNK_FRAMES] samples makes one engine call, the submission of those
    samples as one block; the buffer is empty and the counter zero
    afterwards, and [hasData] is set exactly when the engine returned. *)
Theorem kf_session_feed_exact_chunk frame_rate xs :
  Z.of_nat (length xs) = CHUNK_FRAMES →
  ∃ s' ok,
    kf_session_feed (Some (kf_session_create frame_rate 1)) (Some xs) CHUNK_FRAMES
    = Normal (Some s',
              [ProgressiveChromagram
                 {| ad_frameRate := frame_rate; ad_channels := 1;
                    ad_samples := static_cast_double <$> xs |} ok])
    ∧ sampleBuffer s' = []
    ∧ bufferedFrames s' = 0
    ∧ hasData s' = ok.
Proof.
  intros Hlen.
  destruct (kf_session_feed_mono (kf_session_create frame_rate 1) xs
              (kf_session_create_mono frame_rate) ltac:(by vm_compute)
              ltac:(rewrite Hlen; by vm_compute))
    as (s' & evs & Hfeed & (_ & _ & Hinv) & _ & Hbf & _).
  assert (bufferedFrames s' = 0) as Hzero by (rewrite Hbf, Hlen; reflexivity).
  assert (sampleBuffer s' = []) as Hempty.
  { unfold buffer_invariant in Hinv. rewrite Hzero in Hinv.
    apply nil_length_inv. lia. }
  assert (Z.of_nat (length xs) ≠ 0) as Hn by (rewrite Hlen; by unfold CHUNK_FRAMES).
  destruct (kf_session_feed_normal _ _ _ _ _ Hn Hfeed) as [_ Hloop].
  unfold drain in Hloop.
  destruct (drain_loop_normal _ _ _ _ _ (is_uint_appended _ _ _) Hloop)
    as (_ & Hcount & Hall & Hkeep).
  pose proof (kf_session_feed_hasData _ _ _ _ _ Hfeed) as Hdata.
  rewrite sampleBuffer_appended, Hempty, app_nil_r, Nat2Z.id, firstn_all in Hkeep.
  unfold turns in Hcount. rewrite bufferedFrames_appended, Hlen in Hcount.
  rewrite frameRate_appended in Hall. clear Hloop.
  change (frameRate (kf_session_create frame_rate 1)) with frame_rate in Hall.
  change (channels (kf_session_create frame_rate 1)) with 1 in Hall.
  change (sampleBuffer (kf_session_create frame_rate 1)) with (@nil double) in Hkeep.
  change (hasData (kf_session_create frame_rate 1)) with false in Hdata.
  change (Z.to_nat
            (uint (bufferedFrames (kf_session_create frame_rate 1) + CHUNK_FRAMES)
             / CHUNK_FRAMES)) with 1%nat in Hcount.
  rewrite app_nil_l in Hkeep.
  destruct evs as [|ev [|ev' evs]]; try done.
  apply Forall_inv in Hall.
  destruct ev as [[fr ch smp] ok| |]; try done.
  unfold chunk_event in Hall. cbn [ad_frameRate ad_channels] in Hall.
  destruct Hall as (-> & -> & _).
  rewrite block_samples_cons in Hkeep. cbn [ad_samples] in Hkeep.
  change (block_samples []) with (@nil double) in Hkeep.
  rewrite app_nil_r in Hkeep. subst smp.
  exists s', ok. rewrite <- Hlen at 1. rewrite Hfeed.
  split; [reflexivity|]. split; [done|]. split; [done|].
  rewrite Hdata. by destruct ok.
Qed.

(** ** Finalizing *)

Lemma final_calls_app evs1 evs2 :
  final_calls (evs1 ++ evs2) = (final_calls evs1 + final_calls evs2)%nat.
Proof.
  induction evs1 as [|[audio ok| |] evs1 IH]; simpl; [done | done | | done].
  by rewrite IH.
Qed.

(** After the flush, [kf_session_finalize] calls [finalChromagram] once,
    submits nothing more and leaves the bookkeeping alone. *)
Lemma kf_session_finalize_closing s t flushed :
  flush_remaining s = Normal (t, flushed) →
  ∃ key t' closing,
    kf_session_finalize (Some s) = Normal (key, Some t', flushed ++ closing)
    ∧ bookkeeping t' = bookkeeping t
    ∧ submissions closing = []
    ∧ final_calls closing = 1%nat.
Proof.
  intros Hflush. unfold kf_session_finalize.
  rewrite Hflush, exec_bind_normal. cbv beta iota.
  destruct (finalChromagram (finder t) (workspace t)) as [[[[]|] f] w].
  - simpl. destruct (keyOfChromagram f w) as [[[key|] f'] w'];
      by eexists _, _, _.
  - by eexists _, _, _.
Qed.

Lemma flush_remaining_empty s :
  bufferedFrames s = 0 → flush_remaining s = Normal (s, []).
Proof. intros Hbf. unfold flush_remaining. by rewrite decide_False by lia. Qed.

(** X10. Nothing stops a second [kf_session_finalize]: on a session that
    satisfies the buffer invariant the first call returns with an empty
    buffer, and a second call on the session it leaves returns too, submits
    no block, keeps the buffer empty and calls [finalChromagram] again, so
    the engine's window is closed once per call. *)
Theorem kf_session_finalize_twice s :
  is_uint (bufferedFrames s) →
  is_uint (bufferedFrames s * channels s) →
  buffer_invariant s →
  ∃ key1 s1 evs1 key2 s2 evs2,
    kf_session_finalize (Some s) = Normal (key1, Some s1, evs1)
    ∧ kf_session_finalize (Some s1) = Normal (key2, Some s2, evs2)
    ∧ final_calls evs1 = 1%nat
    ∧ final_calls evs2 = 1%nat
    ∧ submissions evs2 = []
    ∧ sampleBuffer s2 = []
    ∧ bufferedFrames s2 = 0.
Proof.
  intros Hu Hprod Hinv.
  destruct (flush_remaining_ok s Hu Hprod Hinv)
    as (t & flushed & Hflush & Hflushed & Hbuf & Hbf & _).
  destruct (kf_session_finalize_closing s t flushed Hflush)
    as (key1 & s1 & closing1 & Hrun1 & Hbooks1 & _ & Hfinal1).
  unfold bookkeeping in Hbooks1.
  assert (sampleBuffer s1 = [] ∧ bufferedFrames s1 = 0) as [Hbuf1 Hbf1]
    by (split; congruence).
  destruct (kf_session_finalize_closing s1 s1 [] (flush_remaining_empty s1 Hbf1))
    as (key2 & s2 & closing2 & Hrun2 & Hbooks2 & Hsub2 & Hfinal2).
  unfold bookkeeping in Hbooks2.
  exists key1, s1, (flushed ++ closing1), key2, s2, closing2.
  split; [done|]. split; [done|]. split; [|split; [done|]].
  - rewrite final_calls_app, Hfinal1.
    destruct (decide (0 < bufferedFrames s)).
    + by destruct Hflushed as (ok & -> & _).
    + by destruct Hflushed as [-> _].
  - split; [done|]. split; congruence.
Qed.

(** ** The whole stream, one channel *)

Lemma kf_session_finalize_blocks s :
  is_uint (bufferedFrames s) →
  is_uint (bufferedFrames s * channels s) →
  buffer_invariant s →
  ∃ key s' evs,
    kf_session_finalize (Some s) = Normal (key, Some s', evs)
    ∧ block_samples evs = sampleBuffer s.
Proof.
  intros Hu Hprod Hinv.
  destruct (flush_remaining_ok s Hu Hprod Hinv)
    as (t & flushed & Hflush & Hflushed & _).
  destruct (kf_session_finalize_closing s t flushed Hflush)
    as (key & s' & closing & Hrun & _ & Hsub & _).
  exists key, s', (flushed ++ closing). split; [done|].
  rewrite block_samples_app. unfold block_samples at 2. rewrite Hsub.
  cbn [fmap list_fmap concat]. rewrite app_nil_r.
  destruct (decide (0 < bufferedFrames s)).
  - destruct Hflushed as (ok & -> & _). rewrite block_samples_cons.
    cbn [ad_samples]. apply app_nil_r.
  - destruct Hflushed as [-> _]. unfold buffer_invariant in Hinv.
    assert (bufferedFrames s = 0) as Hzero by uint_lia.
    rewrite Hzero in Hinv. symmetry. apply nil_length_inv. lia.
Qed.

Lemma feed_all_mono_keeps pieces s :
  mono_session s → bufferedFrames s < CHUNK_FRAMES →
  Forall (λ xs, Z.of_nat (length xs) <= UINT_RANGE - CHUNK_FRAMES) pieces →
  ∃ s' evs,
    feed_all (Some s) (mono_call <$> pieces) = Normal (Some s', evs)
    ∧ mono_session s'
    ∧ block_samples evs ++ sampleBuffer s'
      = sampleBuffer s ++ (static_cast_double <$> concat pieces).
Proof.
  revert s. induction pieces as [|xs pieces IH]; intros s Hmono Hlt Hall.
  - exists s, []. split; [done|]. split; [done|]. simpl. by rewrite app_nil_r.
  - apply Forall_cons in Hall as [Hxs Hall].
    pose proof Hmono as (Hch & Hu & Hinv).
    destruct (kf_session_feed_mono s xs Hmono Hlt ltac:(uint_lia))
      as (s1 & evs1 & Hfeed & Hmono1 & _ & Hbf1 & _).
    assert (bufferedFrames s1 < CHUNK_FRAMES) as Hlt1.
    { rewrite Hbf1. apply Z.mod_pos_bound. by unfold CHUNK_FRAMES. }
    assert (block_samples evs1 ++ sampleBuffer s1
            = sampleBuffer s ++ (static_cast_double <$> xs)) as Hkeep1.
    { pose proof Hfeed as Hwhole. rewrite kf_session_feed_whole in Hwhole by done.
      unfold drain in Hwhole.
      destruct (drain_loop _ _ _) as [ [t evs'] | | ] eqn:Hloop; try done.
      rewrite exec_bind_normal in Hwhole. injection Hwhole as -> ->.
      by destruct (drain_loop_normal _ _ _ _ _ (is_uint_appended _ _ _) Hloop)
        as (_ & _ & _ & Hkeep). }
    destruct (IH s1 Hmono1 Hlt1 Hall) as (s' & evs & Hrest & Hmono' & Hkeep).
    exists s', (evs1 ++ evs).
    rewrite fmap_cons. unfold mono_call at 1.
    rewrite feed_all_cons, Hfeed, exec_bind_normal. cbv beta iota.
    rewrite Hrest, exec_bind_normal. cbv beta iota.
    split; [done|]. split; [done|].
    rewrite block_samples_app, <- app_assoc, Hkeep, app_assoc, Hkeep1.
    change (concat (xs :: pieces)) with (xs ++ concat pieces).
    by rewrite fmap_app, app_assoc.
Qed.

(** X13. A one-channel session from creation to finalization: whatever
    pieces the stream is fed in (each at most [UINT_RANGE - CHUNK_FRAMES]
    samples), all calls return, and the blocks submitted to
    [progressiveChromagram] by the feeds and by the final flush, laid end
    to end, are exactly the stream converted to [double]: every sample
    reaches the engine once, in order. *)
Theorem mono_stream_reaches_engine frame_rate pieces :
  Forall (λ xs, Z.of_nat (length xs) <= UINT_RANGE - CHUNK_FRAMES) pieces →
  ∃ s' evs key s'' evs',
    feed_all (Some (kf_session_create frame_rate 1)) (mono_call <$> pieces)
    = Normal (Some s', evs)
    ∧ kf_session_finalize (Some s') = Normal (key, Some s'', evs')
    ∧ block_samples (evs ++ evs') = static_cast_double <$> concat pieces.
Proof.
  intros Hall.
  destruct (feed_all_mono_keeps pieces (kf_session_create frame_rate 1)
              (kf_session_create_mono frame_rate) ltac:(by vm_compute) Hall)
    as (s' & evs & Hfeeds & (Hch & Hu & Hinv) & Hkeep).
  destruct (kf_session_finalize_blocks s' Hu) as (key & s'' & evs' & Hrun & Hlast).
  { rewrite Hch, Z.mul_1_r. exact Hu. }
  { exact Hinv. }
  exists s', evs, key, s'', evs'. split; [done|]. split; [done|].
  by rewrite block_samples_app, Hlast, Hkeep.
Qed.

(** ** Several channels *)

(** X2. A session of 2 to 262143 channels never gets a chunk through.
    From a state whose buffer is no longer than its counter (as
    [kf_session_create] and every earlier call leave it), any sequence of
    calls, each with an array that holds the samples it counts, that
    brings the counter to [CHUNK_FRAMES] without wrapping it (counter plus
    counted frames below [UINT_RANGE]) runs into the loop with fewer than
    [CHUNK_FRAMES * channels] samples buffered and reads past the end of
    the buffer. *)
Theorem feed_all_channels_out_of_bounds calls s :
  2 <= channels s < 262144 →
  Z.of_nat (length (sampleBuffer s)) <= bufferedFrames s →
  bufferedFrames s < CHUNK_FRAMES →
  Forall call_in_bounds calls →
  bufferedFrames s + total_frames calls < UINT_RANGE →
  CHUNK_FRAMES <= bufferedFrames s + total_frames calls →
  feed_all (Some s) calls = Undefined.
Proof.
  intros Hch. revert s Hch.
  induction calls as [|[xs n] calls IH]; intros s Hch Hlen Hlt Hall Hsum Hge.
  - simpl in Hge. lia.
  - apply Forall_cons in Hall as [[Hn Hxs] Hall]. simpl in Hn, Hxs.
    change (total_frames ((xs, n) :: calls)) with (n + total_frames calls) in *.
    rewrite feed_all_cons.
    destruct (decide (n = 0)) as [->|Hpos].
    { rewrite kf_session_feed_zero, exec_bind_normal. cbv beta iota.
      rewrite IH; [done | done | done | done | done | lia | lia]. }
    destruct (decide (CHUNK_FRAMES <= bufferedFrames s + n)) as [Hfull|Hbelow].
    + assert (0 <= total_frames calls) as Hrest.
      { clear -Hall. induction Hall as [|[ys m] calls [Hm _] _ IH']; [done|].
        change (total_frames ((ys, m) :: calls)) with (m + total_frames calls).
        simpl in Hm. lia. }
      rewrite kf_session_feed_several_channels; [done | | done | lia | lia | done | done].
      rewrite uint_small; uint_lia.
    + assert (0 <= total_frames calls) as Hrest.
      { clear -Hall. induction Hall as [|[ys m] calls [Hm _] _ IH']; [done|].
        change (total_frames ((ys, m) :: calls)) with (m + total_frames calls).
        simpl in Hm. lia. }
      rewrite kf_session_feed_below_chunk by lia.
      rewrite exec_bind_normal. cbv beta iota.
      rewrite IH; [done | done | | | done | | ].
      * rewrite length_sampleBuffer_appended, length_take, bufferedFrames_appended,
          uint_small by uint_lia. lia.
      * rewrite bufferedFrames_appended, uint_small; uint_lia.
      * rewrite bufferedFrames_appended, uint_small by uint_lia. lia.
      * rewrite bufferedFrames_appended, uint_small by uint_lia. lia.
Qed.

(** ** An engine that throws *)

(** Under an engine whose submissions all throw, the loop still runs to
    its end and no submission is accepted. *)
Lemma drain_loop_all_throw fuel ch s t evs :
  (∀ f audio w, (progressiveChromagram f audio w).1.1 = Throws) →
  drain_loop fuel ch s = Normal (t, evs) →
  accepted evs = [].
Proof.
  intros Hthrow. revert s evs. induction fuel as [|fuel IH]; intros s evs;
    destruct (decide (CHUNK_FRAMES <= bufferedFrames s)) as [Hge|Hlt].
  - simpl. by rewrite decide_True.
  - rewrite drain_loop_below by lia. by intros [= <- <-].
  - rewrite drain_loop_S by done.
    destruct (drain_chunk_cases ch s) as [[Hlen ->]|[_ ->]]; [|done].
    rewrite exec_bind_normal. cbv beta iota.
    destruct (drain_loop fuel ch (after_chunk ch s)) as [ [s2 evs2] | | ] eqn:Hrest;
      try done.
    rewrite exec_bind_normal. cbv beta iota. intros [= <- <-].
    destruct (try_progressiveChromagram_event (chunk_of ch s) s) as (ok & Hev & _).
    pose proof (try_progressiveChromagram_returned _ _ _ Hev) as Hret.
    rewrite Hthrow in Hret. destruct ok; [discriminate Hret|].
    rewrite Hev. simpl. by apply (IH (after_chunk ch s)).
  - rewrite drain_loop_below by lia. by intros [= <- <-].
Qed.

(** On one channel a call that counts no more samples than the array
    holds returns, whatever the engine does, and leaves a one-channel
    session with the invariant. *)
Lemma kf_session_feed_mono_returns s samples n :
  mono_session s → bufferedFrames s < CHUNK_FRAMES → 0 < n →
  (Z.to_nat n ≤ length samples)%nat → bufferedFrames s + n < UINT_RANGE →
  ∃ t evs,
    kf_session_feed (Some s) (Some samples) n = Normal (Some t, evs)
    ∧ mono_session t.
Proof.
  intros Hmono Hlt Hn Hlen Hsum.
  assert (Z.of_nat (length (take (Z.to_nat n) samples)) = n) as Hcnt
    by (rewrite length_take; lia).
  destruct (kf_session_feed_mono s (take (Z.to_nat n) samples) Hmono Hlt)
    as (t & evs & Hrun & Hmono' & _); [by rewrite Hcnt|].
  rewrite Hcnt in Hrun. exists t, evs. split; [|done].
  rewrite <- Hrun.
  rewrite !kf_session_feed_reads by (try rewrite length_take; lia).
  by rewrite take_take, Nat.min_id.
Qed.
End Operations.

(** * The same calls under two engines *)

Section TwoEngines.
Context `{Numerics} {KF1 WS1 KF2 WS2 : Type}
        `{!Engine KF1 WS1} `{!Engine KF2 WS2}.

Lemma drain_loop_engine_independent fuel ch
    (s1 : kf_session KF1 WS1) (s2 : kf_session KF2 WS2) :
  bookkeeping s1 = bookkeeping s2 →
  same_run bookkeeping bookkeeping (drain_loop fuel ch s1) (drain_loop fuel ch s2).
Proof.
  revert s1 s2. induction fuel as [|fuel IH]; intros s1 s2 Hb;
    pose proof Hb as Hb'; unfold bookkeeping in Hb';
    injection Hb' as Hfr Hch Hbuf Hbf; simpl; rewrite <- Hbf;
    destruct (decide (CHUNK_FRAMES <= bufferedFrames s1)) as [Hge|Hlt];
    try done.
  assert (chunk_of ch s1 = chunk_of ch s2) as Hchunk
    by (unfold chunk_of; by rewrite Hfr, Hbuf).
  assert (bookkeeping (after_chunk ch s1) = bookkeeping (after_chunk ch s2)) as Hafter
    by (rewrite !after_chunk_bookkeeping; by rewrite Hfr, Hch, Hbuf, Hbf).
  destruct (drain_chunk_cases ch s1) as [[Hl1 ->]|[Hl1 ->]];
    destruct (drain_chunk_cases ch s2) as [[Hl2 ->]|[Hl2 ->]];
    try (rewrite Hbuf in Hl1; lia); [|done].
  simpl. specialize (IH _ _ Hafter).
  destruct (try_progressiveChromagram_event (chunk_of ch s1) s1) as (ok1 & -> & _).
  destruct (try_progressiveChromagram_event (chunk_of ch s2) s2) as (ok2 & -> & _).
  destruct (drain_loop fuel ch (after_chunk ch s1)) as [ [t1 e1] | | ];
    destruct (drain_loop fuel ch (after_chunk ch s2)) as [ [t2 e2] | | ];
    simpl in *; try done.
  destruct IH as [-> ->]. by rewrite Hchunk.
Qed.

(** C7. Nothing an engine does inside [kf_session_feed] reaches the
    caller or the bookkeeping.

    A call with a null handle, a null sample pointer or a count of zero
    returns at once with the session as it was and no engine call.

    In a turn of the loop the chunk is erased from the buffer and the
    counter lowered by [CHUNK_FRAMES] whether [progressiveChromagram]
    returned or threw; only [hasData] tells the two apart.  So the same
    call on sessions with the same rate, channels, buffer and counter,
    under any two engines, is defined for both or for neither and leaves
    the same rate, channels, buffer and counter after the same blocks were
    submitted; and [hasData] is set exactly by the submissions that
    returned.

    For the call as a whole, with a count other than zero: whatever the
    engine returned or threw, a call that returns has gone through the
    loop to its end.  The counter it leaves is below [CHUNK_FRAMES] and is
    the old counter plus the count modulo [CHUNK_FRAMES], one block was
    submitted for each full chunk of the counter, each block has the
    session's rate and channels and a chunk's samples, the blocks followed
    by what the buffer still holds are the old buffer followed by the
    samples read, and rate and channels are as before.  If every
    submission throws, all of this holds with no submission accepted and
    [hasData] as it was.

    On one channel the call does return, whatever the engine does, when
    the session has the invariant and fewer than [CHUNK_FRAMES] frames
    buffered, the array holds the samples counted and the counter does not
    wrap; the session it leaves has the invariant again. *)
Theorem kf_session_feed_absorbs_failures
    (s1 : kf_session KF1 WS1) (s2 : kf_session KF2 WS2)
    (array : option (list float)) (n : Z) :
  bookkeeping s1 = bookkeeping s2 →
  kf_session_feed (@None (kf_session KF1 WS1)) array n = Normal (None, [])
  ∧ kf_session_feed (Some s1) None n = Normal (Some s1, [])
  ∧ kf_session_feed (Some s1) array 0 = Normal (Some s1, [])
  ∧ (∀ ch,
       (Z.to_nat (uint (CHUNK_FRAMES * ch)) ≤ length (sampleBuffer s1))%nat →
       ∃ t ok,
         drain_chunk ch s1 = Normal (t, ProgressiveChromagram (chunk_of ch s1) ok)
         ∧ bookkeeping t
           = (frameRate s1, channels s1,
              drop (Z.to_nat (uint (CHUNK_FRAMES * ch))) (sampleBuffer s1),
              uint (bufferedFrames s1 - CHUNK_FRAMES))
         ∧ hasData t = (ok || hasData s1)
         ∧ (progressiveChromagram (finder s1) (chunk_of ch s1) (workspace s1)).1.1
           = if ok then Returns tt else Throws)
  ∧ match kf_session_feed (Some s1) array n, kf_session_feed (Some s2) array n with
    | Normal (Some t1, evs1), Normal (Some t2, evs2) =>
        bookkeeping t1 = bookkeeping t2 ∧ submissions evs1 = submissions evs2
    | Undefined, Undefined => True
    | _, _ => False
    end
  ∧ (∀ t evs,
       kf_session_feed (Some s1) array n = Normal (Some t, evs) →
       hasData t = match accepted evs with [] => hasData s1 | _ => true end)
  ∧ (∀ samples t evs,
       n ≠ 0 →
       kf_session_feed (Some s1) (Some samples) n = Normal (Some t, evs) →
       0 <= bufferedFrames t < CHUNK_FRAMES
       ∧ bufferedFrames t = (bufferedFrames s1 + n) mod CHUNK_FRAMES
       ∧ Z.of_nat (length evs) = uint (bufferedFrames s1 + n) / CHUNK_FRAMES
       ∧ Forall (chunk_event (frameRate s1) (channels s1)) evs
       ∧ block_samples evs ++ sampleBuffer t
         = sampleBuffer s1 ++ (static_cast_double <$> take (Z.to_nat n) samples)
       ∧ frameRate t = frameRate s1
       ∧ channels t = channels s1
       ∧ ((∀ (f : KF1) audio (w : WS1),
             (progressiveChromagram f audio w).1.1 = Throws) →
          accepted evs = [] ∧ hasData t = hasData s1))
  ∧ (∀ samples,
       mono_session s1 → bufferedFrames s1 < CHUNK_FRAMES → 0 < n →
       (Z.to_nat n ≤ length samples)%nat → bufferedFrames s1 + n < UINT_RANGE →
       ∃ t evs,
         kf_session_feed (Some s1) (Some samples) n = Normal (Some t, evs)
         ∧ mono_session t).
Proof.
  intros Hb.
  split; [by destruct array|]. split; [done|].
  split; [apply kf_session_feed_zero|].
  split; [intros ch; apply drain_chunk_swallows|].
  split; [|split; [intros t evs; apply kf_session_feed_hasData|split]].
  - pose proof Hb as Hb'. unfold bookkeeping in Hb'.
    injection Hb' as Hfr Hch Hbuf Hbf.
    destruct array as [smp|]; simpl; [|done].
    destruct (decide (n = 0)); [done|]. rewrite <- Hbuf, <- Hbf, <- Hch.
    destruct (push_samples smp (sampleBuffer s1) 0 (Z.to_nat n)) as [buf| |] eqn:Hpush;
      simpl; [| done | by apply push_samples_terminates in Hpush].
    match goal with
    | |- context [drain_loop ?f ?c (set_bufferedFrames ?b (set_sampleBuffer ?l s1))] =>
        pose proof (drain_loop_engine_independent f c
                      (set_bufferedFrames b (set_sampleBuffer l s1))
                      (set_bufferedFrames b (set_sampleBuffer l s2))) as Hloop;
        pose proof (drain_loop_terminates f c
                      (set_bufferedFrames b (set_sampleBuffer l s1))
                      (turns_le_counter _)) as Hterm
    end.
    specialize (Hloop ltac:(unfold bookkeeping; simpl; by rewrite Hfr, Hch)).
    simpl in Hloop.
    match type of Hloop with
    | same_run _ _ ?r1 ?r2 =>
        destruct r1 as [ [t1 e1] | | ]; destruct r2 as [ [t2 e2] | | ]
    end; simpl in *; done.
  - intros samples t evs Hn Hfeed.
    destruct (kf_session_feed_normal _ _ _ _ _ Hn Hfeed) as [_ Hloop].
    unfold drain in Hloop.
    destruct (drain_loop_normal _ _ _ _ _ (is_uint_appended _ _ _) Hloop)
      as (Hbf & Hcount & Hall & Hkeep).
    destruct (drain_loop_exit _ _ _ _ _ Hloop) as (_ & Hfr & Hch & _ & _).
    rewrite bufferedFrames_appended, uint_mod_chunk in Hbf.
    rewrite frameRate_appended in Hall. rewrite sampleBuffer_appended in Hkeep.
    split; [rewrite Hbf; apply Z.mod_pos_bound; by unfold CHUNK_FRAMES|].
    split; [exact Hbf|].
    split.
    { rewrite Hcount. unfold turns. rewrite bufferedFrames_appended.
      apply Z2Nat.id, Z.div_pos; [apply uint_is_uint | by unfold CHUNK_FRAMES]. }
    split; [exact Hall|]. split; [exact Hkeep|].
    split; [exact Hfr|]. split; [exact Hch|].
    intros Hthrow.
    pose proof (drain_loop_all_throw _ _ _ _ _ Hthrow Hloop) as Hacc.
    split; [exact Hacc|].
    by rewrite (kf_session_feed_hasData _ _ _ _ _ Hfeed), Hacc.
  - intros samples. apply kf_session_feed_mono_returns.
Qed.

End TwoEngines.

(** * The wrapper on concrete sessions *)

#[local] Existing Instance integer_samples.
#[local] Existing Instance counting_engine.

Lemma length_constant_samples n : length (constant_samples n) = Z.to_nat n.
Proof. apply length_replicate. Qed.

(** ** Two channels *)

(** C1. The buffer invariant [bufferedFrames * channels = length
    sampleBuffer] does not survive [kf_session_feed] on a two-channel
    session: fed one frame (the two samples 10 and 11), the call appends the
    single sample 10 and counts one frame, so the counter times the channel
    count is 2 while the buffer holds 1 sample. *)
Theorem kf_session_feed_two_channels_invariant :
  buffer_invariant stereo_session
  ∧ ∃ s',
      kf_session_feed (Some stereo_session) (Some [10; 11]) 1 = Normal (Some s', [])
      ∧ sampleBuffer s' = [10]
      ∧ bufferedFrames s' = 1
      ∧ channels s' = 2
      ∧ bufferedFrames s' * channels s' ≠ Z.of_nat (length (sampleBuffer s')).
Proof.
  split; [reflexivity|]. eexists. split; [reflexivity|]. by repeat split.
Qed.

(** C2. On a two-channel session fed 16384 frames the loop body runs with
    a buffer of 16384 samples while [chunkSamples] is 32768: the read of
    [sampleBuffer[16384]] is out of bounds, and the call is undefined. *)
Theorem kf_session_feed_two_channels_out_of_bounds :
  let samples := constant_samples 32768 in
  let entered := appended stereo_session (take (Z.to_nat 16384) samples) 16384 in
  kf_session_feed (Some stereo_session) (Some samples) 16384
  = ('(s', evs) ← drain 2 entered; mret (Some s', evs))
  ∧ CHUNK_FRAMES <= bufferedFrames entered
  ∧ length (sampleBuffer entered) = Z.to_nat 16384
  ∧ uint (CHUNK_FRAMES * channels entered) = 32768
  ∧ sampleBuffer entered !! Z.to_nat 16384 = None
  ∧ drain_chunk 2 entered = Undefined
  ∧ kf_session_feed (Some stereo_session) (Some samples) 16384 = Undefined.
Proof.
  intros samples entered. subst samples.
  pose proof (length_constant_samples 32768) as Hlen.
  split.
  { unfold entered.
    rewrite kf_session_feed_reads; [reflexivity | lia | rewrite Hlen; lia]. }
  split; [unfold entered; by rewrite bufferedFrames_appended|].
  assert (length (sampleBuffer entered) = Z.to_nat 16384) as Hbuf.
  { unfold entered. rewrite length_sampleBuffer_appended, length_take, Hlen.
    change (length (sampleBuffer stereo_session)) with O. lia. }
  split; [done|]. split; [reflexivity|].
  split; [apply lookup_ge_None; lia|].
  split.
  { apply drain_chunk_short. rewrite Hbuf.
    change (uint (CHUNK_FRAMES * 2)) with 32768. lia. }
  apply kf_session_feed_several_channels;
    [ by vm_compute | by vm_compute | lia | by vm_compute | by vm_compute
    | rewrite Hlen; lia ].
Qed.

(** C3. Fed [3 * CHUNK_FRAMES + 100] frames in one call, a two-channel
    session does not get to three submissions with 100 frames left: the
    first turn of the loop takes 32768 samples of the 49252 buffered and
    leaves 16484 samples with the counter at 32868, the second turn reads
    32768 samples from those 16484, and the call is undefined. *)
Theorem kf_session_feed_two_channels_three_chunks :
  let frames := 3 * CHUNK_FRAMES + 100 in
  let samples := constant_samples (frames * 2) in
  let entered := appended stereo_session (take (Z.to_nat frames) samples) frames in
  ∃ s1 ev,
    drain_chunk 2 entered = Normal (s1, ev)
    ∧ bufferedFrames s1 = 2 * CHUNK_FRAMES + 100
    ∧ length (sampleBuffer s1) = Z.to_nat (CHUNK_FRAMES + 100)
    ∧ drain_chunk 2 s1 = Undefined
    ∧ kf_session_feed (Some stereo_session) (Some samples) frames = Undefined.
Proof.
  intros frames samples entered. subst samples.
  pose proof (length_constant_samples (frames * 2)) as Hlen.
  assert (length (sampleBuffer entered) = Z.to_nat 49252) as Hbuf.
  { unfold entered. rewrite length_sampleBuffer_appended, length_take, Hlen.
    change (length (sampleBuffer stereo_session)) with O.
    unfold frames, CHUNK_FRAMES. lia. }
  assert (Z.to_nat (uint (CHUNK_FRAMES * 2)) = Z.to_nat 32768) as Hchunk
    by reflexivity.
  eexists _, _. split.
  { apply drain_chunk_ok. rewrite Hbuf, Hchunk. lia. }
  assert (length (sampleBuffer (after_chunk 2 entered)) = Z.to_nat 16484) as Hrest.
  { rewrite sampleBuffer_after_chunk.
    rewrite length_drop, Hbuf, Hchunk. lia. }
  split; [reflexivity|]. split; [exact Hrest|]. split.
  { apply drain_chunk_short. rewrite Hrest, Hchunk. lia. }
  apply kf_session_feed_several_channels;
    [ by vm_compute | by vm_compute | by vm_compute | by vm_compute | by vm_compute
    | rewrite Hlen; unfold frames, CHUNK_FRAMES; lia ].
Qed.

(** C4. On a two-channel session the way a stream is cut into calls
    matters.  The two frames (10, 11), (20, 21) passed in one call leave the
    samples 10, 11 buffered; passed one frame per call they leave 10, 20.
    And a stream of 16384 frames is undefined both in one call and in two
    calls of 8192 frames: neither way yields a sequence of chunks. *)
Theorem kf_session_feed_two_channels_split :
  (∃ whole pieces,
     kf_session_feed (Some stereo_session) (Some [10; 11; 20; 21]) 2
     = Normal (Some whole, [])
     ∧ feed_all (Some stereo_session) [([10; 11], 1); ([20; 21], 1)]
       = Normal (Some pieces, [])
     ∧ sampleBuffer whole = [10; 11]
     ∧ sampleBuffer pieces = [10; 20]
     ∧ bufferedFrames whole = 2 ∧ bufferedFrames pieces = 2)
  ∧ let stream := constant_samples 32768 in
    kf_session_feed (Some stereo_session) (Some stream) 16384 = Undefined
    ∧ feed_all (Some stereo_session)
        [(take (Z.to_nat 16384) stream, 8192); (drop (Z.to_nat 16384) stream, 8192)]
      = Undefined.
Proof.
  split.
  { eexists _, _. split; [reflexivity|]. split; [reflexivity|]. by repeat split. }
  intros stream. subst stream.
  pose proof (length_constant_samples 32768) as Hlen.
  split.
  { apply kf_session_feed_several_channels;
      [ by vm_compute | by vm_compute | lia | by vm_compute | by vm_compute
      | rewrite Hlen; lia ]. }
  rewrite feed_all_cons.
  rewrite kf_session_feed_below_chunk;
    [ | by vm_compute | done | by vm_compute | rewrite length_take, Hlen; lia ].
  rewrite exec_bind_normal. cbv beta iota.
  rewrite feed_all_cons.
  rewrite kf_session_feed_several_channels; [done | by vm_compute | | done | | | ].
  - rewrite length_sampleBuffer_appended, bufferedFrames_appended, !length_take, Hlen.
    change (length (sampleBuffer stereo_session)) with O.
    change (uint (bufferedFrames stereo_session + 8192)) with 8192. lia.
  - by vm_compute.
  - by vm_compute.
  - rewrite length_drop, Hlen. lia.
Qed.

(** C5. [kf_session_finalize] does not flush the partial chunk of every
    session it can be handed.  The two-channel session that was fed one
    frame holds one sample for one counted frame; the flush makes a block
    of [bufferedFrames * channels = 2] samples, reads [sampleBuffer[1]]
    past the end of the buffer, and the call is undefined: nothing is
    submitted, cleared or returned. *)
Theorem kf_session_finalize_two_channels :
  ∃ s',
    kf_session_feed (Some stereo_session) (Some [10; 11]) 1 = Normal (Some s', [])
    ∧ sampleBuffer s' = [10]
    ∧ bufferedFrames s' = 1
    ∧ uint (bufferedFrames s' * channels s') = 2
    ∧ sampleBuffer s' !! 1%nat = None
    ∧ flush_remaining s' = Undefined
    ∧ kf_session_finalize (Some s') = Undefined.
Proof. eexists. split; [reflexivity|]. by repeat split. Qed.

(** ** One channel *)

(** The flush at work on a session that satisfies the invariant: three
    buffered frames go out as one block and the buffer is empty
    afterwards. *)
Lemma kf_session_finalize_flushes_witness :
  is_uint (bufferedFrames partial_session)
  ∧ is_uint (bufferedFrames partial_session * channels partial_session)
  ∧ buffer_invariant partial_session
  ∧ ∃ key s' flushed closing,
      kf_session_finalize (Some partial_session)
      = Normal (key, Some s', flushed ++ closing)
      ∧ sampleBuffer s' = [] ∧ bufferedFrames s' = 0.
Proof.
  assert (is_uint (bufferedFrames partial_session)) as H1 by (by vm_compute).
  assert (is_uint (bufferedFrames partial_session * channels partial_session)) as H2
    by (by vm_compute).
  assert (buffer_invariant partial_session) as H3 by reflexivity.
  destruct (kf_session_finalize_flushes partial_session H1 H2 H3)
    as (key & s' & flushed & closing & Hrun & _ & Hbuf & Hbf & _).
  split; [exact H1|]. split; [exact H2|]. split; [exact H3|].
  exists key, s', flushed, closing. by repeat split.
Defined.

(** C6 on two sessions: one that has submitted nothing, one whose engine
    has counted 30 samples and answers 30 mod 24. *)
Lemma kf_session_get_key_silence_witness :
  hasData partial_session = false
  ∧ kf_session_get_key (Some partial_session) = (24, Some partial_session, [])
  ∧ hasData running_session = true
  ∧ keyOfChromagram (finder running_session) (workspace running_session)
    = (Returns 6, tt, 30)
  ∧ kf_session_get_key (Some running_session)
    = (6, Some (set_engine tt 30 running_session), [KeyOfChromagram (Some 6)]).
Proof.
  destruct (@kf_session_get_key_silence integer_samples unit Z counting_engine)
    as (_ & Hsilent & _ & _ & Hkey).
  split; [reflexivity|]. split; [apply Hsilent; reflexivity|].
  split; [reflexivity|]. split; [reflexivity|].
  apply Hkey; reflexivity.
Defined.

(** C7 on a one-channel session whose engine throws at every call, fed
    two chunks and three samples in one call: the call returns, both
    chunks were submitted and lost, three frames and three samples are
    left, and [hasData] stays false. *)
Lemma kf_session_feed_absorbs_failures_witness :
  bookkeeping mono_throwing = bookkeeping mono_counting
  ∧ ∃ t evs,
      @kf_session_feed integer_samples unit unit throwing_engine
        (Some mono_throwing) (Some (constant_samples 32771)) 32771
      = Normal (Some t, evs)
      ∧ length evs = 2%nat
      ∧ accepted evs = []
      ∧ bufferedFrames t = 3
      ∧ length (sampleBuffer t) = 3%nat
      ∧ hasData t = false.
Proof.
  split; [reflexivity|].
  destruct (@kf_session_feed_absorbs_failures integer_samples unit unit unit Z
              throwing_engine counting_engine mono_throwing mono_counting
              (Some (constant_samples 32771)) 32771 eq_refl)
    as (_ & _ & _ & _ & _ & _ & Hfed & Hreturns).
  destruct (Hreturns (constant_samples 32771)) as (t & evs & Hrun & Hmono).
  { apply (@kf_session_create_mono integer_samples unit unit throwing_engine). }
  { reflexivity. }
  { lia. }
  { rewrite length_constant_samples. lia. }
  { reflexivity. }
  destruct (Hfed (constant_samples 32771) t evs)
    as (_ & Hbf & Hcount & _ & _ & _ & _ & Hthrow); [lia | exact Hrun |].
  destruct Hthrow as [Hacc Hdata]; [intros; reflexivity|].
  assert ((@bufferedFrames integer_samples unit unit mono_throwing + 32771)
          mod CHUNK_FRAMES = 3) as Hmod by reflexivity.
  assert (uint (@bufferedFrames integer_samples unit unit mono_throwing + 32771)
          / CHUNK_FRAMES = 2) as Hdiv by reflexivity.
  rewrite Hmod in Hbf. rewrite Hdiv in Hcount.
  destruct Hmono as (Hch & _ & Hinv). unfold buffer_invariant in Hinv.
  rewrite Hch, Hbf in Hinv.
  exists t, evs.
  split; [exact Hrun|]. split; [lia|]. split; [exact Hacc|].
  split; [exact Hbf|]. split; [lia|]. exact Hdata.
Defined.

(** C8 with the counting engine, whose classification reads the workspace
    and changes nothing. *)
Lemma kf_session_get_key_idempotent_witness :
  (∀ f w, (@keyOfChromagram integer_samples unit Z counting_engine f w).1.2 = f
          ∧ (@keyOfChromagram integer_samples unit Z counting_engine f w).2 = w)
  ∧ ∃ key evs,
      kf_session_get_key (Some running_session) = (key, Some running_session, evs).
Proof.
  assert (∀ f w, (@keyOfChromagram integer_samples unit Z counting_engine f w).1.2 = f
                 ∧ (@keyOfChromagram integer_samples unit Z counting_engine f w).2 = w)
    as Hconst by (intros f w; split; reflexivity).
  split; [exact Hconst|].
  destruct (kf_session_get_key_idempotent (Some running_session))
    as (key & session' & evs & _ & _ & Hagain).
  destruct (Hagain Hconst) as [-> [evs' Hsecond]].
  exists key, evs'. exact Hsecond.
Defined.

(** C10 on a session just created: [kf_session_get_key] answers silence,
    [kf_session_finalize] asks the engine and answers its key 0. *)
Lemma kf_session_finalize_unguarded_witness :
  hasData mono_counting = false
  ∧ bufferedFrames mono_counting = 0
  ∧ sampleBuffer mono_counting = []
  ∧ kf_session_get_key (Some mono_counting) = (24, Some mono_counting, [])
  ∧ ∃ s', kf_session_finalize (Some mono_counting)
          = Normal (0, Some s', [FinalChromagram true; KeyOfChromagram (Some 0)]).
Proof.
  destruct (kf_session_finalize_unguarded mono_counting eq_refl eq_refl eq_refl)
    as [Hkey (key & s' & closing & Hrun & Hcalls)].
  simpl in Hcalls. destruct Hcalls as [-> ->].
  split; [reflexivity|]. split; [reflexivity|]. split; [reflexivity|].
  split; [exact Hkey|]. by exists s'.
Defined.

(** ** Further properties at work *)

(** X2 on the two-channel session fed 16384 frames. *)
Lemma feed_all_channels_out_of_bounds_witness :
  2 <= channels stereo_session < 262144
  ∧ Z.of_nat (length (sampleBuffer stereo_session)) <= bufferedFrames stereo_session
  ∧ bufferedFrames stereo_session < CHUNK_FRAMES
  ∧ Forall call_in_bounds [(constant_samples 32768, 16384)]
  ∧ feed_all (Some stereo_session) [(constant_samples 32768, 16384)] = Undefined.
Proof.
  assert (Forall (@call_in_bounds integer_samples)
            [(constant_samples 32768, 16384)]) as Hcalls.
  { constructor; [|constructor]. split; [by vm_compute|].
    cbn [fst snd]. rewrite length_constant_samples. lia. }
  split; [by vm_compute|]. split; [by vm_compute|]. split; [by vm_compute|].
  split; [exact Hcalls|].
  apply (feed_all_channels_out_of_bounds _ stereo_session);
    [by vm_compute | by vm_compute | by vm_compute | exact Hcalls
    | by vm_compute | by vm_compute].
Defined.

(** X3 on the two-channel session fed one frame. *)
Lemma kf_session_feed_breaks_invariant_witness :
  buffer_invariant stereo_session
  ∧ channels stereo_session ≠ 1
  ∧ ∃ s',
      kf_session_feed (Some stereo_session) (Some [10; 11]) 1 = Normal (Some s', [])
      ∧ ¬ buffer_invariant s'.
Proof.
  assert (buffer_invariant stereo_session) as Hinv by reflexivity.
  assert (channels stereo_session ≠ 1) as Hch by (by vm_compute).
  destruct (kf_session_feed_breaks_invariant stereo_session [10; 11] 1 Hinv Hch)
    as (s' & Hfeed & _ & _ & Hbroken);
    [by vm_compute | lia | by vm_compute | simpl; lia |].
  split; [exact Hinv|]. split; [exact Hch|]. by exists s'.
Defined.

(** X4 on two pieces of three and two samples. *)
Lemma feed_all_create_mono_witness :
  Forall (λ xs : list Z, Z.of_nat (length xs) <= UINT_RANGE - CHUNK_FRAMES)
    [[3; 1; 4]; [1; 5]]
  ∧ ∃ s' evs,
      feed_all (Some mono_counting) (mono_call <$> [[3; 1; 4]; [1; 5]])
      = Normal (Some s', evs)
      ∧ bufferedFrames s' = 5
      ∧ length (submissions evs) = O.
Proof.
  assert (Forall (λ xs : list Z, Z.of_nat (length xs) <= UINT_RANGE - CHUNK_FRAMES)
            [[3; 1; 4]; [1; 5]]) as Hall
    by (constructor; [by vm_compute|]; constructor; [by vm_compute|]; constructor).
  split; [exact Hall|].
  destruct (@feed_all_create_mono integer_samples unit Z counting_engine
              44100 [[3; 1; 4]; [1; 5]] Hall)
    as (s' & evs & Hrun & _ & _ & Hbf & Hsub).
  exists s', evs. split; [exact Hrun|]. split; [exact Hbf|].
  apply Nat2Z.inj. exact Hsub.
Defined.

(** X5 on the same two pieces. *)
Lemma feed_all_create_mono_concat_witness :
  Z.of_nat (length (concat [[3; 1; 4]; [1; 5]])) < UINT_RANGE
  ∧ feed_all (Some mono_counting) (mono_call <$> [[3; 1; 4]; [1; 5]])
    = kf_session_feed (Some mono_counting) (Some [3; 1; 4; 1; 5]) 5.
Proof.
  split; [by vm_compute|].
  apply (@feed_all_create_mono_concat integer_samples unit Z counting_engine
           44100 [[3; 1; 4]; [1; 5]]).
  by vm_compute.
Defined.

(** X7, X9 and X14 on the call that turns the one-channel session just
    created into [partial_session]. *)
Lemma kf_session_feed_counter_witness :
  kf_session_feed (Some mono_counting) (Some [3; 1; 4]) 3
  = Normal (Some partial_session, [])
  ∧ bufferedFrames partial_session = (bufferedFrames mono_counting + 3) mod CHUNK_FRAMES
  ∧ channels partial_session = channels mono_counting.
Proof.
  assert (kf_session_feed (Some mono_counting) (Some [3; 1; 4]) 3
          = Normal (Some partial_session, [])) as Hfeed by reflexivity.
  destruct (kf_session_feed_counter mono_counting [3; 1; 4] 3 partial_session []
              ltac:(lia) Hfeed) as (_ & Hbf & _ & _ & Hch).
  by repeat split.
Defined.

Lemma kf_session_feed_submits_chunks_witness :
  kf_session_feed (Some mono_counting) (Some [3; 1; 4]) 3
  = Normal (Some partial_session, [])
  ∧ Forall (chunk_event (frameRate mono_counting) (channels mono_counting)) []
  ∧ final_calls (@nil (@event integer_samples)) = O.
Proof.
  assert (kf_session_feed (Some mono_counting) (Some [3; 1; 4]) 3
          = Normal (Some partial_session, [])) as Hfeed by reflexivity.
  split; [exact Hfeed|].
  exact (kf_session_feed_submits_chunks mono_counting [3; 1; 4] 3 partial_session []
           ltac:(lia) Hfeed).
Defined.

Lemma kf_session_feed_keeps_samples_witness :
  kf_session_feed (Some mono_counting) (Some [3; 1; 4]) 3
  = Normal (Some partial_session, [])
  ∧ block_samples [] ++ sampleBuffer partial_session
    = sampleBuffer mono_counting
      ++ (@static_cast_double integer_samples <$> take (Z.to_nat 3) [3; 1; 4]).
Proof.
  assert (kf_session_feed (Some mono_counting) (Some [3; 1; 4]) 3
          = Normal (Some partial_session, [])) as Hfeed by reflexivity.
  split; [exact Hfeed|].
  exact (kf_session_feed_keeps_samples mono_counting [3; 1; 4] 3 partial_session []
           ltac:(lia) Hfeed).
Defined.

(** X8 on the session whose engine has taken 30 samples. *)
Lemma hasData_stays_set_witness :
  hasData running_session = true
  ∧ ∃ s',
      kf_session_feed (Some running_session) (Some [1; 5]) 2 = Normal (Some s', [])
      ∧ hasData s' = true.
Proof.
  split; [reflexivity|].
  destruct (hasData_stays_set running_session eq_refl) as (Hfeed & _ & _).
  eexists. split; [reflexivity|].
  eapply (Hfeed (Some [1; 5]) 2). reflexivity.
Defined.

(** X10 on the session that holds three frames. *)
Lemma kf_session_finalize_twice_witness :
  is_uint (bufferedFrames partial_session)
  ∧ is_uint (bufferedFrames partial_session * channels partial_session)
  ∧ buffer_invariant partial_session
  ∧ ∃ key1 s1 evs1 key2 s2 evs2,
      kf_session_finalize (Some partial_session) = Normal (key1, Some s1, evs1)
      ∧ kf_session_finalize (Some s1) = Normal (key2, Some s2, evs2)
      ∧ final_calls evs1 = 1%nat ∧ final_calls evs2 = 1%nat
      ∧ submissions evs2 = [].
Proof.
  assert (is_uint (bufferedFrames partial_session)) as H1 by (by vm_compute).
  assert (is_uint (bufferedFrames partial_session * channels partial_session)) as H2
    by (by vm_compute).
  assert (buffer_invariant partial_session) as H3 by reflexivity.
  destruct (kf_session_finalize_twice partial_session H1 H2 H3)
    as (key1 & s1 & evs1 & key2 & s2 & evs2 & Hrun1 & Hrun2 & Hf1 & Hf2 & Hsub & _).
  split; [exact H1|]. split; [exact H2|]. split; [exact H3|].
  exists key1, s1, evs1, key2, s2, evs2. by repeat split.
Defined.

(** X11 on an array of exactly one chunk. *)
Lemma kf_session_feed_exact_chunk_witness :
  Z.of_nat (length (constant_samples 16384)) = CHUNK_FRAMES
  ∧ ∃ s' ok,
      kf_session_feed (Some mono_counting) (Some (constant_samples 16384)) CHUNK_FRAMES
      = Normal (Some s',
                [ProgressiveChromagram
                   {| ad_frameRate := 44100; ad_channels := 1;
                      ad_samples := @static_cast_double integer_samples
                                      <$> constant_samples 16384 |} ok])
      ∧ sampleBuffer s' = [] ∧ bufferedFrames s' = 0 ∧ hasData s' = ok.
Proof.
  assert (Z.of_nat (length (constant_samples 16384)) = CHUNK_FRAMES) as Hlen.
  { rewrite length_constant_samples. unfold CHUNK_FRAMES. lia. }
  split; [exact Hlen|].
  exact (@kf_session_feed_exact_chunk integer_samples unit Z counting_engine
           44100 (constant_samples 16384) Hlen).
Defined.

(** X12 on the session that holds three frames, fed two more. *)
Lemma kf_session_feed_below_chunk_silent_witness :
  hasData partial_session = false
  ∧ ∃ s',
      kf_session_feed (Some partial_session) (Some [1; 5]) 2 = Normal (Some s', [])
      ∧ sampleBuffer s' = [3; 1; 4; 1; 5]
      ∧ bufferedFrames s' = 5
      ∧ kf_session_get_key (Some s') = (24, Some s', []).
Proof.
  split; [reflexivity|].
  destruct (kf_session_feed_below_chunk_silent partial_session [1; 5] 2 eq_refl)
    as (s' & Hfeed & Hbuf & Hbf & Hkey);
    [by vm_compute | lia | by vm_compute | simpl; lia |].
  exists s'. split; [exact Hfeed|]. split; [exact Hbuf|]. split; [exact Hbf|].
  exact Hkey.
Defined.

(** X13 on a stream of five samples fed in two pieces. *)
Lemma mono_stream_reaches_engine_witness :
  Forall (λ xs : list Z, Z.of_nat (length xs) <= UINT_RANGE - CHUNK_FRAMES)
    [[3; 1; 4]; [1; 5]]
  ∧ ∃ s' evs key s'' evs',
      feed_all (Some mono_counting) (mono_call <$> [[3; 1; 4]; [1; 5]])
      = Normal (Some s', evs)
      ∧ kf_session_finalize (Some s') = Normal (key, Some s'', evs')
      ∧ block_samples (evs ++ evs') = [3; 1; 4; 1; 5].
Proof.
  assert (Forall (λ xs : list Z, Z.of_nat (length xs) <= UINT_RANGE - CHUNK_FRAMES)
            [[3; 1; 4]; [1; 5]]) as Hall
    by (constructor; [by vm_compute|]; constructor; [by vm_compute|]; constructor).
  split; [exact Hall|].
  exact (@mono_stream_reaches_engine integer_samples unit Z counting_engine
           44100 [[3; 1; 4]; [1; 5]] Hall).
Defined.
